(** * Heterogeneous participating medium (src/medium/heterogeneous.cpp)

    A shallow embedding of Mitsuba's [HeterogeneousMedium]: the density
    lookup, the composite Simpson integrator [integrateDensity], the
    Newton-Bisection inverter [invertDensityIntegral], and the query
    operations [getTransmittance], [sampleDistance] and [pdfDistance];
    then the constructor, [addChild], [configure] and the serialization,
    which set the medium up.

    Numbers.  The C++ type [Float] is modelled by exact rational
    arithmetic extended with the IEEE special values: a [Float] is a
    canonical rational, plus or minus infinity, or NaN.  Operations on
    finite values are exact (rounding is not modelled); operations that
    involve a special value or a division by zero follow IEEE 754 (no
    signed zero).  [uint32_t] is a [Z] reduced modulo [2^32]. *)

From Stdlib Require Import QArith Qcanon Qcabs Qround Qabs Lqa Lia ZArith List Bool String.
Import ListNotations.

Local Open Scope Qc_scope.

(* ================================================================== *)
(** * Extended exact floats *)
(* ================================================================== *)

Inductive Float : Set :=
| Fin (q : Qc)
| PInf
| NInf
| NaN.

Definition F0 : Float := Fin 0.
Definition F1 : Float := Fin 1.
Definition Fz (z : Z) : Float := Fin (Q2Qc (inject_Z z)).
Definition Fq (n : Z) (d : positive) : Float := Fin (Q2Qc (n # d)).

(** [std::numeric_limits<Float>::infinity()] *)
Definition infinity : Float := PInf.

Definition Qc_eqb (a b : Qc) : bool := Qeq_bool a b.
Definition Qc_leb (a b : Qc) : bool := Qle_bool a b.
Definition Qc_ltb (a b : Qc) : bool := negb (Qle_bool b a).

Definition fneg (x : Float) : Float :=
  match x with
  | Fin a => Fin (- a)
  | PInf => NInf
  | NInf => PInf
  | NaN => NaN
  end.

Definition fadd (x y : Float) : Float :=
  match x, y with
  | NaN, _ | _, NaN => NaN
  | Fin a, Fin b => Fin (a + b)
  | PInf, NInf | NInf, PInf => NaN
  | PInf, _ | _, PInf => PInf
  | NInf, _ | _, NInf => NInf
  end.

Definition fsub (x y : Float) : Float := fadd x (fneg y).

(** Sign of a float: [Some Lt] negative, [Some Eq] zero, [Some Gt]
    positive, [None] for NaN. *)
Definition fsign (x : Float) : option comparison :=
  match x with
  | Fin a => Some (a ?= 0)
  | PInf => Some Gt
  | NInf => Some Lt
  | NaN => None
  end.

(** Product of two signs as an infinite result; a zero factor gives NaN. *)
Definition signed_inf (s1 s2 : option comparison) : Float :=
  match s1, s2 with
  | Some Lt, Some Lt | Some Gt, Some Gt => PInf
  | Some Lt, Some Gt | Some Gt, Some Lt => NInf
  | _, _ => NaN
  end.

Definition fmul (x y : Float) : Float :=
  match x, y with
  | Fin a, Fin b => Fin (a * b)
  | _, _ => signed_inf (fsign x) (fsign y)
  end.

Definition fdiv (x y : Float) : Float :=
  match x, y with
  | NaN, _ | _, NaN => NaN
  | Fin a, Fin b =>
      if Qc_eqb b 0 then
        (if Qc_eqb a 0 then NaN else if Qc_ltb a 0 then NInf else PInf)
      else Fin (a / b)
  | Fin _, _ => F0
  | _, Fin b => signed_inf (fsign x) (if Qc_ltb b 0 then Some Lt else Some Gt)
  | _, _ => NaN
  end.

Definition feq (x y : Float) : bool :=
  match x, y with
  | Fin a, Fin b => Qc_eqb a b
  | PInf, PInf | NInf, NInf => true
  | _, _ => false
  end.

Definition flt (x y : Float) : bool :=
  match x, y with
  | Fin a, Fin b => Qc_ltb a b
  | NInf, Fin _ | NInf, PInf | Fin _, PInf => true
  | _, _ => false
  end.

Definition fle (x y : Float) : bool := flt x y || feq x y.
Definition fgt (x y : Float) : bool := flt y x.
Definition fge (x y : Float) : bool := fle y x.

Definition fabs (x : Float) : Float :=
  match x with
  | Fin a => Fin (Qcabs a)
  | PInf | NInf => PInf
  | NaN => NaN
  end.

(** [std::max(a, b)] is [(a < b) ? b : a]; [std::min(a, b)] is
    [(b < a) ? b : a]. *)
Definition fmax (a b : Float) : Float := if flt a b then b else a.
Definition fmin (a b : Float) : Float := if flt b a then b else a.

(** [std::ceil] *)
Definition fceil (x : Float) : Float :=
  match x with
  | Fin a => Fz (Qceiling a)
  | _ => x
  end.

(** [(uint32_t) x]: truncation toward zero, reduced modulo [2^32].  The
    conversion of a value outside the range of [uint32_t] is undefined in
    C++; the reduction is what the usual 64-bit conversion followed by a
    truncation produces, and the special values give 0. *)
Definition uint32_modulus : Z := 2 ^ 32.

Definition to_uint32 (x : Float) : Z :=
  match x with
  | Fin a => (Z.quot (Qnum a) (Zpos (Qden a))) mod uint32_modulus
  | _ => 0
  end%Z.

Definition uint32_add (a b : Z) : Z := ((a + b) mod uint32_modulus)%Z.

Declare Scope float_scope.
Delimit Scope float_scope with F.
Bind Scope float_scope with Float.
Infix "+" := fadd : float_scope.
Infix "-" := fsub : float_scope.
Infix "*" := fmul : float_scope.
Infix "/" := fdiv : float_scope.
Notation "- x" := (fneg x) : float_scope.
Infix "<?" := flt : float_scope.
Infix "<=?" := fle : float_scope.
Infix ">?" := fgt : float_scope.
Infix ">=?" := fge : float_scope.
Infix "==?" := feq (at level 70, no associativity) : float_scope.

(* ================================================================== *)
(** * Points, vectors, rays, spectra *)
(* ================================================================== *)

Record Vector : Set := mkVector { vx : Float; vy : Float; vz : Float }.
Record Point : Set := mkPoint { px : Float; py : Float; pz : Float }.

(** [p[i]] *)
Definition point_get (p : Point) (i : nat) : Float :=
  match i with
  | O => px p
  | S O => py p
  | _ => pz p
  end.

(** [p + v] *)
Definition point_add (p : Point) (v : Vector) : Point :=
  mkPoint (px p + vx v)%F (py p + vy v)%F (pz p + vz v)%F.

(** [v * f] *)
Definition vec_scale (v : Vector) (f : Float) : Vector :=
  mkVector (vx v * f)%F (vy v * f)%F (vz v * f)%F.

(** [p == q] *)
Definition point_eqb (p q : Point) : bool :=
  (px p ==? px q)%F && (py p ==? py q)%F && (pz p ==? pz q)%F.

(** [dot(d, v)] *)
Definition dot (a b : Vector) : Float :=
  (vx a * vx b + vy a * vy b + vz a * vz b)%F.

(** [v.isZero()] *)
Definition isZero (v : Vector) : bool :=
  (vx v ==? F0)%F && (vy v ==? F0)%F && (vz v ==? F0)%F.

(** The members [o], [d], [mint] and [maxt] of a [Ray]. *)
Record Ray : Set := mkRay {
  ray_o : Point;
  ray_d : Vector;
  ray_mint : Float;
  ray_maxt : Float
}.

(** [ray(t)], the point [o + t * d]. *)
Definition ray_at (r : Ray) (t : Float) : Point := point_add (ray_o r) (vec_scale (ray_d r) t).

(** A spectrum is a list of channel values. *)
Definition Spectrum : Set := list Float.

Definition spectrum_scale (s : Spectrum) (f : Float) : Spectrum := map (fun c => c * f)%F s.

Fixpoint spectrum_zip (op : Float -> Float -> Float) (a b : Spectrum) : Spectrum :=
  match a, b with
  | x :: a', y :: b' => op x y :: spectrum_zip op a' b'
  | _, _ => []
  end.

Definition spectrum_sub : Spectrum -> Spectrum -> Spectrum := spectrum_zip fsub.
Definition spectrum_div : Spectrum -> Spectrum -> Spectrum := spectrum_zip fdiv.

(** [s.max()] *)
Definition spectrum_max (s : Spectrum) : Float :=
  match s with
  | [] => F0
  | x :: s' => fold_left fmax s' x
  end.

(* ================================================================== *)
(** * Collaborators of the medium *)
(* ================================================================== *)

(** The interface of a nested volume, as the medium uses it. *)
Record VolumeDataSource : Type := mkVolume {
  lookupFloat : Point -> Float;
  lookupSpectrum : Point -> Spectrum;
  lookupVector : Point -> Vector
}.

(** The interface of the phase function, as the medium uses it. *)
Record PhaseFunction : Type := mkPhase {
  needsDirectionallyVaryingCoefficients : bool;
  sigmaDir : Float -> Float;
  sigmaDirMax : Float
}.

Record AABB : Set := mkAABB { aabb_min : Point; aabb_max : Point }.

(** A sampler is a sequence of draws and a position in it; [next1D]
    returns the next draw and advances. *)
Record Sampler : Type := mkSampler { draws : nat -> Float; pos : nat }.

Definition next1D (s : Sampler) : Float * Sampler :=
  (draws s (pos s), mkSampler (draws s) (S (pos s))).

Inductive EIntegrationMethod : Set :=
| ESimpsonQuadrature
| EWoodcockTracking.

(** The members of [HeterogeneousMedium], with [m_densityMultiplier] and
    [m_phaseFunction] inherited from [Medium].  [m_density] and
    [m_albedo] are never null once [configure] has accepted the medium;
    [m_orientation] may be. *)
Record HeterogeneousMedium : Type := mkMedium {
  m_method : EIntegrationMethod;
  m_density : VolumeDataSource;
  m_albedo : VolumeDataSource;
  m_orientation : option VolumeDataSource;
  m_anisotropicMedium : bool;
  m_stepSize : Float;
  m_densityAABB : AABB;
  m_maxDensity : Float;
  m_invMaxDensity : Float;
  m_densityMultiplier : Float;
  m_phaseFunction : PhaseFunction
}.

Record MediumSamplingRecord : Type := mkMRec {
  mrec_t : Float;
  mrec_p : Point;
  mrec_orientation : Vector;
  mrec_sigmaA : Spectrum;
  mrec_sigmaS : Spectrum;
  mrec_albedo : Float;
  mrec_pdfFailure : Float;
  mrec_pdfSuccess : Float;
  mrec_pdfSuccessRev : Float;
  mrec_transmittance : Spectrum
}.

(** Assignments to the members of a record. *)
Definition set_t (r : MediumSamplingRecord) (v : Float) :=
  mkMRec v (mrec_p r) (mrec_orientation r) (mrec_sigmaA r) (mrec_sigmaS r)
    (mrec_albedo r) (mrec_pdfFailure r) (mrec_pdfSuccess r)
    (mrec_pdfSuccessRev r) (mrec_transmittance r).
Definition set_p (r : MediumSamplingRecord) (v : Point) :=
  mkMRec (mrec_t r) v (mrec_orientation r) (mrec_sigmaA r) (mrec_sigmaS r)
    (mrec_albedo r) (mrec_pdfFailure r) (mrec_pdfSuccess r)
    (mrec_pdfSuccessRev r) (mrec_transmittance r).
Definition set_orientation (r : MediumSamplingRecord) (v : Vector) :=
  mkMRec (mrec_t r) (mrec_p r) v (mrec_sigmaA r) (mrec_sigmaS r)
    (mrec_albedo r) (mrec_pdfFailure r) (mrec_pdfSuccess r)
    (mrec_pdfSuccessRev r) (mrec_transmittance r).
Definition set_sigmaA (r : MediumSamplingRecord) (v : Spectrum) :=
  mkMRec (mrec_t r) (mrec_p r) (mrec_orientation r) v (mrec_sigmaS r)
    (mrec_albedo r) (mrec_pdfFailure r) (mrec_pdfSuccess r)
    (mrec_pdfSuccessRev r) (mrec_transmittance r).
Definition set_sigmaS (r : MediumSamplingRecord) (v : Spectrum) :=
  mkMRec (mrec_t r) (mrec_p r) (mrec_orientation r) (mrec_sigmaA r) v
    (mrec_albedo r) (mrec_pdfFailure r) (mrec_pdfSuccess r)
    (mrec_pdfSuccessRev r) (mrec_transmittance r).
Definition set_albedo (r : MediumSamplingRecord) (v : Float) :=
  mkMRec (mrec_t r) (mrec_p r) (mrec_orientation r) (mrec_sigmaA r)
    (mrec_sigmaS r) v (mrec_pdfFailure r) (mrec_pdfSuccess r)
    (mrec_pdfSuccessRev r) (mrec_transmittance r).
Definition set_pdfFailure (r : MediumSamplingRecord) (v : Float) :=
  mkMRec (mrec_t r) (mrec_p r) (mrec_orientation r) (mrec_sigmaA r)
    (mrec_sigmaS r) (mrec_albedo r) v (mrec_pdfSuccess r)
    (mrec_pdfSuccessRev r) (mrec_transmittance r).
Definition set_pdfSuccess (r : MediumSamplingRecord) (v : Float) :=
  mkMRec (mrec_t r) (mrec_p r) (mrec_orientation r) (mrec_sigmaA r)
    (mrec_sigmaS r) (mrec_albedo r) (mrec_pdfFailure r) v
    (mrec_pdfSuccessRev r) (mrec_transmittance r).
Definition set_pdfSuccessRev (r : MediumSamplingRecord) (v : Float) :=
  mkMRec (mrec_t r) (mrec_p r) (mrec_orientation r) (mrec_sigmaA r)
    (mrec_sigmaS r) (mrec_albedo r) (mrec_pdfFailure r) (mrec_pdfSuccess r)
    v (mrec_transmittance r).
Definition set_transmittance (r : MediumSamplingRecord) (v : Spectrum) :=
  mkMRec (mrec_t r) (mrec_p r) (mrec_orientation r) (mrec_sigmaA r)
    (mrec_sigmaS r) (mrec_albedo r) (mrec_pdfFailure r) (mrec_pdfSuccess r)
    (mrec_pdfSuccessRev r) v.

(** Modelled from the spec: the logger behind the [Log] macro, which
    belongs to the core library and not to the medium.  A message at
    level [EError] is fatal: the call does not return and the caller
    gets no result; a message at level [EWarn] is reported and execution
    continues.  [Fatal] is the outcome of an operation that ends in
    [Log(EError, ...)]. *)
Inductive Result (A : Type) : Type :=
| Ok (a : A)
| Fatal (msg : string).
Arguments Ok {A} a.
Arguments Fatal {A} msg.

(* ================================================================== *)
(** * The medium *)
(* ================================================================== *)

Section Medium.

(** Parts of the renderer that the medium relies on and that live in
    other files: the constant [Epsilon] of [constants.h], the number of
    spectral channels, [std::exp] and [std::log], and
    [AABB::rayIntersect], which returns the parameter interval of the
    ray inside the box, or nothing when the ray misses it. *)
Variable Epsilon : Float.
Variable SPECTRUM_SAMPLES : nat.
Variable exp : Float -> Float.
Variable log : Float -> Float.
Variable rayIntersect : AABB -> Ray -> option (Float * Float).

(** [Spectrum(v)]: the value [v] in every channel. *)
Definition Spectrum_of (v : Float) : Spectrum := repeat v SPECTRUM_SAMPLES.

(** [Vector(0.0f)] *)
Definition Vector_of (v : Float) : Vector := mkVector v v v.

Variable self : HeterogeneousMedium.

(** [m_orientation->lookupVector(p)].  [configure] rejects an
    anisotropic medium without an orientation volume, so the null case
    is never reached from [lookupDensity]; it is given the zero vector. *)
Definition orientation_lookupVector (p : Point) : Vector :=
  match m_orientation self with
  | Some v => lookupVector v p
  | None => Vector_of F0
  end.

Definition lookupDensity (p : Point) (d : Vector) : Float :=
  let density := lookupFloat (m_density self) p in
  if m_anisotropicMedium self && negb (density ==? F0)%F then
    let orientation := orientation_lookupVector p in
    if negb (isZero orientation) then
      (density * sigmaDir (m_phaseFunction self) (dot d orientation))%F
    else F0
  else density.

(** The loop that ignores degenerate path segments: the largest absolute
    coordinate of the two end points. *)
Definition maxComp_of (p pLast : Point) : Float :=
  fold_left
    (fun maxComp i =>
       fmax (fmax maxComp (fabs (point_get p i))) (fabs (point_get pLast i)))
    [0; 1; 2]%nat F0.

(** ** integrateDensity *)

(** What the marching loop of [integrateDensity] ends with: the early
    exit returns at once, otherwise the loop ends (at its bound or on
    the forward-progress guard) with the running sum. *)
Inductive MarchOutcome : Set :=
| EarlyExit
| Marched (integratedDensity : Float).

(** The body of [for (i = 1; i < nSteps; ++i)], [k] iterations left. *)
Fixpoint integrate_loop (rd increment : Vector) (stopValue : Float)
    (k : nat) (p : Point) (m integratedDensity : Float) : MarchOutcome :=
  match k with
  | O => Marched integratedDensity
  | S k' =>
      let integratedDensity := (integratedDensity + m * lookupDensity p rd)%F in
      let m := (Fz 6 - m)%F in
      if (integratedDensity >? stopValue)%F then EarlyExit
      else
        let next := point_add p increment in
        if point_eqb p next then Marched integratedDensity
        else integrate_loop rd increment stopValue k' next m integratedDensity
  end.

(** [nSteps = (uint32_t) ceil(length / m_stepSize); nSteps += nSteps % 2] *)
Definition integrate_nSteps (length : Float) : Z :=
  let nSteps := to_uint32 (fceil (length / m_stepSize self)%F) in
  uint32_add nSteps (nSteps mod 2).

Definition integrateDensity (ray : Ray) : Float :=
  match rayIntersect (m_densityAABB self) ray with
  | None => F0
  | Some (mint0, maxt0) =>
      let mint := fmax mint0 (ray_mint ray) in
      let maxt := fmin maxt0 (ray_maxt ray) in
      let length := (maxt - mint)%F in
      let p := ray_at ray mint in
      let pLast := ray_at ray maxt in
      let maxComp := maxComp_of p pLast in
      if (length <? Fq 1 1000000 * maxComp)%F then F0
      else
        let nSteps := integrate_nSteps length in
        let stepSize := (length / Fz nSteps)%F in
        let increment := vec_scale (ray_d ray) stepSize in
        let integratedDensity :=
          (lookupDensity p (ray_d ray) + lookupDensity pLast (ray_d ray))%F in
        let stopAfterDensity := (- log Epsilon)%F in
        let stopValue :=
          (stopAfterDensity * Fz 3 / (stepSize * m_densityMultiplier self))%F in
        let p := point_add p increment in
        match integrate_loop (ray_d ray) increment stopValue
                (Z.to_nat (nSteps - 1)) p (Fz 4) integratedDensity with
        | EarlyExit => infinity
        | Marched integratedDensity =>
            (integratedDensity * m_densityMultiplier self * stepSize
             * (F1 / Fz 3))%F
        end
  end.

(** ** invertDensityIntegral *)

(** The reference parameters of [invertDensityIntegral] and its return
    value. *)
Record Inversion : Set := mkInversion {
  inv_found : bool;
  inv_integratedDensity : Float;
  inv_t : Float;
  inv_densityAtMinT : Float;
  inv_densityAtT : Float
}.

Section NewtonBisection.

Variables (node1 node2 node3 stepSize integratedDensity desiredDensity : Float).

Let stepSizeSqr : Float := (stepSize * stepSize)%F.
Let temp : Float := (m_densityMultiplier self / stepSizeSqr)%F.

(** Lagrange polynomial from the Simpson quadrature. *)
Definition lagrange (x : Float) : Float :=
  (temp * (node1 * stepSizeSqr
           - (Fz 3 * node1 - Fz 4 * node2 + node3) * stepSize * x
           + Fz 2 * (node1 - Fz 2 * node2 + node3) * x * x))%F.

(** Integrated version of the above Lagrange polynomial. *)
Definition lagrange_integral (x : Float) : Float :=
  (integratedDensity + temp * (F1 / Fz 6) * (x *
     (Fz 6 * node1 * stepSizeSqr
      - Fz 3 * (Fz 3 * node1 - Fz 4 * node2 + node3) * stepSize * x
      + Fz 4 * (node1 - Fz 2 * node2 + node3) * x * x)))%F.

(** The [while (true)] loop of the Newton-Bisection solve.  The counter
    [it] starts at 1 and the loop gives up once [++it > 30], so its body
    runs at most 30 times: [n] counts the runs that are left.  A result
    [Some (x, intval, densityAtT)] is the converged solution; [None] is
    the "stuck in Newton-Bisection" warning. *)
Fixpoint newton_bisection (n : nat) (a b x fx : Float)
  : option (Float * Float * Float) :=
  match n with
  | O => None
  | S n' =>
      let dfx := lagrange x in
      let x := (x - fx / dfx)%F in
      let x :=
        if (x <=? a)%F || (x >=? b)%F || (dfx ==? F0)%F
        then (Fq 1 2 * (b + a))%F else x in
      let intval := lagrange_integral x in
      let fx := (intval - desiredDensity)%F in
      if (fabs fx <? Fq 1 1000000)%F then Some (x, intval, lagrange x)
      else if (fx >? F0)%F then newton_bisection n' a x x fx
      else newton_bisection n' x b x fx
  end.

End NewtonBisection.

(** The body of [for (i = 0; i < nSteps; ++i)], [k] iterations left;
    [t0] is what [t] held on entry. *)
Fixpoint invert_loop (rd fullStep halfStep : Vector)
    (mint stepSize multiplier desiredDensity t0 densityAtMinT : Float)
    (k : nat) (i : Z) (p : Point) (node1 integratedDensity : Float)
  : Inversion :=
  match k with
  | O => mkInversion false integratedDensity t0 densityAtMinT F0
  | S k' =>
      let node2 := lookupDensity (point_add p halfStep) rd in
      let node3 := lookupDensity (point_add p fullStep) rd in
      let newDensity :=
        (integratedDensity + multiplier * (node1 + node2 * Fz 4 + node3))%F in
      if (newDensity >=? desiredDensity)%F then
        let a := F0 in
        let b := stepSize in
        let x := a in
        let fx := (integratedDensity - desiredDensity)%F in
        match newton_bisection node1 node2 node3 stepSize integratedDensity
                desiredDensity 30 a b x fx with
        | Some (x, intval, densityAtT) =>
            mkInversion true intval (mint + stepSize * Fz i + x)%F
              densityAtMinT densityAtT
        | None => mkInversion false integratedDensity t0 densityAtMinT F0
        end
      else
        let next := point_add p fullStep in
        if point_eqb p next then
          mkInversion false integratedDensity t0 densityAtMinT F0
        else
          invert_loop rd fullStep halfStep mint stepSize multiplier
            desiredDensity t0 densityAtMinT k' (i + 1)%Z next node3 newDensity
  end.

(** [nSteps = (uint32_t) ceil(length / (2 * m_stepSize))] *)
Definition invert_nSteps (length : Float) : Z :=
  to_uint32 (fceil (length / (Fz 2 * m_stepSize self))%F).

Definition invertDensityIntegral (ray : Ray) (desiredDensity t0 : Float)
  : Inversion :=
  match rayIntersect (m_densityAABB self) ray with
  | None => mkInversion false F0 t0 F0 F0
  | Some (mint0, maxt0) =>
      let mint := fmax mint0 (ray_mint ray) in
      let maxt := fmin maxt0 (ray_maxt ray) in
      let length := (maxt - mint)%F in
      let p := ray_at ray mint in
      let pLast := ray_at ray maxt in
      let maxComp := maxComp_of p pLast in
      if (length <? Fq 1 1000000 * maxComp)%F then mkInversion false F0 t0 F0 F0
      else
        let nSteps := invert_nSteps length in
        let stepSize := (length / Fz nSteps)%F in
        let multiplier := (F1 / Fz 6 * stepSize * m_densityMultiplier self)%F in
        let fullStep := vec_scale (ray_d ray) stepSize in
        let halfStep := vec_scale fullStep (Fq 1 2) in
        let node1 := lookupDensity p (ray_d ray) in
        let densityAtMinT :=
          if (ray_mint ray ==? mint)%F
          then (node1 * m_densityMultiplier self)%F else F0 in
        invert_loop (ray_d ray) fullStep halfStep mint stepSize multiplier
          desiredDensity t0 densityAtMinT (Z.to_nat nSteps) 0%Z p node1 F0
  end.

(** ** getTransmittance *)

(** One [while (true)] walk of the transmittance estimate, starting at
    [t]; [fuel] bounds the number of proposals, and running out of it
    gives [None]. *)
Fixpoint transmittance_walk (fuel : nat) (ray : Ray) (maxt t result : Float)
    (sampler : Sampler) : option (Float * Sampler) :=
  match fuel with
  | O => None
  | S fuel' =>
      let (xi, sampler) := next1D sampler in
      let t := (t - log (F1 - xi) * m_invMaxDensity self)%F in
      if (t >=? maxt)%F then Some ((result + F1)%F, sampler)
      else
        let p := ray_at ray t in
        let density := (lookupDensity p (ray_d ray) * m_densityMultiplier self)%F in
        let (xi', sampler) := next1D sampler in
        if (density * m_invMaxDensity self >? xi')%F then Some (result, sampler)
        else transmittance_walk fuel' ray maxt t result sampler
  end.

(** [for (int i = 0; i < nSamples; ++i)], [n] iterations left. *)
Fixpoint transmittance_samples (fuel n : nat) (ray : Ray) (mint maxt result : Float)
    (sampler : Sampler) : option (Float * Sampler) :=
  match n with
  | O => Some (result, sampler)
  | S n' =>
      match transmittance_walk fuel ray maxt mint result sampler with
      | None => None
      | Some (result, sampler) =>
          transmittance_samples fuel n' ray mint maxt result sampler
      end
  end.

(** [sampler] is [None] for a null pointer.  The result carries the
    sampler as the call leaves it.  The tracking branch is the [else] of
    [m_method == ESimpsonQuadrature || sampler == NULL]. *)
Definition getTransmittance (fuel : nat) (ray : Ray) (sampler : option Sampler)
  : option (Spectrum * option Sampler) :=
  match m_method self, sampler with
  | EWoodcockTracking, Some smp =>
      match rayIntersect (m_densityAABB self) ray with
      | None => Some (Spectrum_of F1, sampler)
      | Some (mint0, maxt0) =>
          let mint := fmax mint0 (ray_mint ray) in
          let maxt := fmin maxt0 (ray_maxt ray) in
          let nSamples := 2%nat in
          match transmittance_samples fuel nSamples ray mint maxt F0 smp with
          | None => None
          | Some (result, smp) =>
              Some (Spectrum_of (result / Fz (Z.of_nat nSamples))%F, Some smp)
          end
      end
  | _, _ => Some (Spectrum_of (exp (- integrateDensity ray)%F), sampler)
  end.

(** ** sampleDistance *)

(** [m_orientation != NULL ? m_orientation->lookupVector(p) : Vector(0.0f)] *)
Definition orientation_at (p : Point) : Vector :=
  match m_orientation self with
  | Some v => lookupVector v p
  | None => Vector_of F0
  end.

(** The record updates shared by both strategies on a collision at [p]
    with local density [densityAtT]. *)
Definition record_collision (mRec : MediumSamplingRecord) (p : Point)
    (densityAtT : Float) : MediumSamplingRecord :=
  let albedo := lookupSpectrum (m_albedo self) p in
  let mRec := set_sigmaS mRec (spectrum_scale albedo densityAtT) in
  let mRec := set_sigmaA mRec (spectrum_sub (Spectrum_of densityAtT) (mrec_sigmaS mRec)) in
  set_albedo mRec (spectrum_max albedo).

(** The [while (true)] loop of Woodcock tracking in [sampleDistance];
    the result is [success], the record and the sampler. *)
Fixpoint woodcock_walk (fuel : nat) (ray : Ray) (maxt t : Float)
    (mRec : MediumSamplingRecord) (sampler : Sampler)
  : option (bool * MediumSamplingRecord * Sampler) :=
  match fuel with
  | O => None
  | S fuel' =>
      let (xi, sampler) := next1D sampler in
      let t := (t - log (F1 - xi) * m_invMaxDensity self)%F in
      if (t >=? maxt)%F then Some (false, mRec, sampler)
      else
        let p := ray_at ray t in
        let densityAtT := (lookupDensity p (ray_d ray) * m_densityMultiplier self)%F in
        let (xi', sampler) := next1D sampler in
        if (densityAtT * m_invMaxDensity self >? xi')%F then
          let mRec := set_t mRec t in
          let mRec := set_p mRec p in
          let albedo := lookupSpectrum (m_albedo self) p in
          let mRec := record_collision mRec p densityAtT in
          let mRec := set_transmittance mRec (spectrum_div albedo (mrec_sigmaS mRec)) in
          let mRec := set_orientation mRec (orientation_at p) in
          Some (true, mRec, sampler)
        else woodcock_walk fuel' ray maxt t mRec sampler
  end.

Definition sampleDistance (fuel : nat) (ray : Ray) (mRec : MediumSamplingRecord)
    (sampler : Sampler) : option (bool * MediumSamplingRecord * Sampler) :=
  match m_method self with
  | ESimpsonQuadrature =>
      let (xi, sampler) := next1D sampler in
      let desiredDensity := (- log (F1 - xi))%F in
      let inv := invertDensityIntegral ray desiredDensity (mrec_t mRec) in
      let mRec := set_t mRec (inv_t inv) in
      let success := inv_found inv in
      let mRec :=
        if inv_found inv then
          let mRec := set_p mRec (ray_at ray (mrec_t mRec)) in
          let mRec := record_collision mRec (mrec_p mRec) (inv_densityAtT inv) in
          set_orientation mRec (orientation_at (mrec_p mRec))
        else mRec in
      let expVal := exp (- inv_integratedDensity inv)%F in
      let mRec := set_pdfFailure mRec expVal in
      let mRec := set_pdfSuccess mRec (expVal * inv_densityAtT inv)%F in
      let mRec := set_pdfSuccessRev mRec (expVal * inv_densityAtMinT inv)%F in
      let mRec := set_transmittance mRec (Spectrum_of expVal) in
      Some (success && (mrec_pdfSuccess mRec >? F0)%F, mRec, sampler)
  | EWoodcockTracking =>
      let mRec := set_pdfFailure mRec F1 in
      let mRec := set_pdfSuccess mRec F1 in
      let mRec := set_pdfSuccessRev mRec F1 in
      let mRec := set_transmittance mRec (Spectrum_of F1) in
      match rayIntersect (m_densityAABB self) ray with
      | None => Some (false, mRec, sampler)
      | Some (mint0, maxt0) =>
          let mint := fmax mint0 (ray_mint ray) in
          let maxt := fmin maxt0 (ray_maxt ray) in
          match woodcock_walk fuel ray maxt mint mRec sampler with
          | None => None
          | Some (success, mRec, sampler) =>
              Some (success && (mrec_pdfSuccess mRec >? F0)%F, mRec, sampler)
          end
      end
  end.

(** ** pdfDistance *)

Definition pdfDistance (ray : Ray) (mRec : MediumSamplingRecord)
  : Result MediumSamplingRecord :=
  match m_method self with
  | ESimpsonQuadrature =>
      let expVal := exp (- integrateDensity ray)%F in
      let mRec := set_transmittance mRec (Spectrum_of expVal) in
      let mRec := set_pdfFailure mRec expVal in
      let mRec := set_pdfSuccess mRec
        (expVal * lookupDensity (ray_at ray (ray_maxt ray)) (ray_d ray)
         * m_densityMultiplier self)%F in
      let mRec := set_pdfSuccessRev mRec
        (expVal * lookupDensity (ray_at ray (ray_mint ray)) (ray_d ray)
         * m_densityMultiplier self)%F in
      Ok mRec
  | EWoodcockTracking =>
      Fatal "pdfDistance(): unsupported integration method!"
  end.

End Medium.

(* ================================================================== *)
(** * A concrete scene *)
(* ================================================================== *)

(** Stand-ins for the parts that live in other files, used to run the
    medium on concrete rays. *)
Module Scene.

(** [Epsilon] of a single-precision build. *)
Definition Epsilon : Float := Fq 1 10000.

(** RGB rendering. *)
Definition SPECTRUM_SAMPLES : nat := 3.

(** A rational exponential: the Taylor polynomial of degree 4 for a
    non-negative argument and its reciprocal for a negative one.  It is
    positive, equal to 1 at 0, and follows IEEE at the special values. *)
Definition exp_poly (x : Qc) : Qc :=
  1 + x + x * x / Q2Qc 2 + x * x * x / Q2Qc 6 + x * x * x * x / Q2Qc 24.

Definition exp (x : Float) : Float :=
  match x with
  | Fin a => if Qc_leb 0 a then Fin (exp_poly a) else Fin (/ exp_poly (- a))
  | PInf => PInf
  | NInf => F0
  | NaN => NaN
  end.

(** A rational logarithm: the argument is scaled by powers of two into
    [3/4, 3/2), where four terms of the series of twice the inverse
    hyperbolic tangent are used. *)
Fixpoint log_reduce (fuel : nat) (x : Qc) (k : Z) : Qc * Z :=
  match fuel with
  | O => (x, k)
  | S fuel' =>
      if Qc_ltb x (Q2Qc (3 # 4)) then log_reduce fuel' (x * Q2Qc 2) (k - 1)%Z
      else if Qc_leb (Q2Qc (3 # 2)) x then log_reduce fuel' (x / Q2Qc 2) (k + 1)%Z
      else (x, k)
  end.

Definition ln2 : Qc := Q2Qc (6931472 # 10000000).

Definition log (x : Float) : Float :=
  match x with
  | Fin a =>
      if Qc_eqb a 0 then NInf
      else if Qc_ltb a 0 then NaN
      else
        let (m, k) := log_reduce 64 a 0 in
        let z := (m - 1) / (m + 1) in
        let z2 := z * z in
        Fin (Q2Qc (inject_Z k) * ln2
             + Q2Qc 2 * z * (1 + z2 / Q2Qc 3 + z2 * z2 / Q2Qc 5
                             + z2 * z2 * z2 / Q2Qc 7))
  | PInf => PInf
  | _ => NaN
  end.

(** The slab test of an axis-aligned box, one axis at a time. *)
Definition slab (lo hi origin direction : Float) (acc : option (Float * Float))
  : option (Float * Float) :=
  match acc with
  | None => None
  | Some (nearT, farT) =>
      if (direction ==? F0)%F then
        if (origin <? lo)%F || (origin >? hi)%F then None else acc
      else
        let t1 := ((lo - origin) / direction)%F in
        let t2 := ((hi - origin) / direction)%F in
        let (t1, t2) := if (t1 >? t2)%F then (t2, t1) else (t1, t2) in
        let nearT := fmax t1 nearT in
        let farT := fmin t2 farT in
        if (nearT >? farT)%F then None else Some (nearT, farT)
  end.

Definition rayIntersect (box : AABB) (ray : Ray) : option (Float * Float) :=
  let lo := aabb_min box in
  let hi := aabb_max box in
  slab (pz lo) (pz hi) (pz (ray_o ray)) (vz (ray_d ray))
    (slab (py lo) (py hi) (py (ray_o ray)) (vy (ray_d ray))
       (slab (px lo) (px hi) (px (ray_o ray)) (vx (ray_d ray))
          (Some (NInf, PInf)))).

(** A volume with the same density, albedo and orientation everywhere. *)
Definition constant_volume (density albedo : Float) (orientation : Vector)
  : VolumeDataSource :=
  mkVolume (fun _ => density) (fun _ => repeat albedo SPECTRUM_SAMPLES)
    (fun _ => orientation).

Definition isotropic : PhaseFunction := mkPhase false (fun _ => F1) F1.

(** A directional phase function: the extinction seen along a direction
    at cosine [c] to the fibres is [|c|] (and 0 for a cosine that is not
    a number). *)
Definition fibres : PhaseFunction :=
  mkPhase true (fun c => match c with Fin a => Fin (Qcabs a) | _ => F0 end) F1.

(** The cube [[lo, hi]^3]. *)
Definition box (lo hi : Z) : AABB :=
  mkAABB (mkPoint (Fz lo) (Fz lo) (Fz lo)) (mkPoint (Fz hi) (Fz hi) (Fz hi)).

(** An isotropic medium of constant density in [b], with albedo 1/2,
    density multiplier 1 and the majorant equal to the density. *)
Definition constant_medium (method : EIntegrationMethod) (density stepSize : Float)
    (b : AABB) : HeterogeneousMedium :=
  mkMedium method
    (constant_volume density (Fq 1 2) (mkVector F0 F0 F1))
    (constant_volume density (Fq 1 2) (mkVector F0 F0 F1))
    None false stepSize b density (F1 / density)%F F1 isotropic.

(** A ray along the x axis from [(x0, 0, 0)], over the parameter
    interval [[t0, t1]]. *)
Definition x_ray (x0 t0 t1 : Z) : Ray :=
  mkRay (mkPoint (Fz x0) F0 F0) (mkVector F1 F0 F0) (Fz t0) (Fz t1).

(** A sampler that returns the same draw forever. *)
Definition constant_sampler (xi : Float) : Sampler := mkSampler (fun _ => xi) 0.

Definition blank_record : MediumSamplingRecord :=
  mkMRec F0 (mkPoint F0 F0 F0) (mkVector F0 F0 F0) [] [] F0 F0 F0 F0 [].

(** The rational inside a finite float, 0 for a special value. *)
Definition finite_part (x : Float) : Qc :=
  match x with
  | Fin a => a
  | _ => 0
  end.

(** The interval that the slab test reports, [(NaN, NaN)] on a miss. *)
Definition hit (b : AABB) (ray : Ray) : Float * Float :=
  match rayIntersect b ray with
  | Some i => i
  | None => (NaN, NaN)
  end.

(** The finite value of a float as a plain fraction, for display and
    comparison. *)
Definition value (x : Float) : option Q :=
  match x with
  | Fin a => Some (this a)
  | _ => None
  end.

End Scene.

(* ================================================================== *)
(** * Vocabulary of the properties *)
(* ================================================================== *)

(** A finite, non-negative value. *)
Definition nonneg (x : Float) : Prop := exists q : Qc, x = Fin q /\ 0 <= q.

Section Reference.

Variable rayIntersect : AABB -> Ray -> option (Float * Float).
Variable self : HeterogeneousMedium.


End Reference.


(** An integer as a rational. *)
Definition Qz (z : Z) : Qc := Q2Qc (inject_Z z).






(** ** Media and rays of the concrete scene *)

Module Cases.
Import Scene.

(** The cube [[-1, 1]^3] and a cube of half-width twenty million. *)
Definition unit_box : AABB := box (-1) 1.

(** Density 1 and step size 1/2 in the unit cube, one per strategy. *)
Definition quadrature_medium : HeterogeneousMedium :=
  constant_medium ESimpsonQuadrature F1 (Fq 1 2) unit_box.
Definition woodcock_medium : HeterogeneousMedium :=
  constant_medium EWoodcockTracking F1 (Fq 1 2) unit_box.

(** Density 2 under Woodcock tracking, density 100 under the quadrature. *)
Definition woodcock_medium2 : HeterogeneousMedium :=
  constant_medium EWoodcockTracking (Fz 2) (Fq 1 2) unit_box.

(** A volume file with a negative entry. *)
Definition negative_medium : HeterogeneousMedium :=
  constant_medium ESimpsonQuadrature (Fz (-1)) (Fq 1 2) unit_box.


(** A ray along x that crosses the unit cube for [t] in [[4, 6]], and
    one that passes beside it. *)
Definition through_ray : Ray := x_ray (-5) 0 100.
Definition missing_ray : Ray :=
  mkRay (mkPoint (Fz (-5)) (Fz 3) F0) (mkVector F1 F0 F0) F0 (Fz 100).



Definition half_sampler : Sampler := constant_sampler (Fq 1 2).

(** The unit cube with nothing in it, and a sampler that draws 0. *)
Definition vacuum_medium : HeterogeneousMedium :=
  constant_medium ESimpsonQuadrature F0 (Fq 1 2) unit_box.
Definition zero_sampler : Sampler := constant_sampler F0.

(** Fibres along the z axis in the unit cube. *)
Definition fibre_medium : HeterogeneousMedium :=
  mkMedium ESimpsonQuadrature
    (constant_volume F1 (Fq 1 2) (mkVector F0 F0 F1))
    (constant_volume F1 (Fq 1 2) (mkVector F0 F0 F1))
    (Some (constant_volume F1 (Fq 1 2) (mkVector F0 F0 F1)))
    true (Fq 1 2) unit_box F1 F1 F1 fibres.


Definition origin : Point := mkPoint F0 F0 F0.
Definition x_axis : Vector := mkVector F1 F0 F0.

End Cases.


(* ================================================================== *)
(** * Setting the medium up *)
(* ================================================================== *)

(** The constructor, [addChild], [configure] and the two directions of
    the serialization work on the object while its volumes may still be
    missing.  [HeterogeneousMedium] above is what [configure] makes of
    it. *)

(** Sequencing of operations that may end in [Log(EError, ...)]. *)
Definition bind {A B : Type} (r : Result A) (k : A -> Result B) : Result B :=
  match r with
  | Ok a => k a
  | Fatal msg => Fatal msg
  end.

(** [boost::to_lower_copy] in the classic locale: the letters [A] to [Z]
    are replaced by [a] to [z], every other character is kept. *)
Definition to_lower (c : Ascii.ascii) : Ascii.ascii :=
  let n := Ascii.nat_of_ascii c in
  if (65 <=? n)%nat && (n <=? 90)%nat then Ascii.ascii_of_nat (n + 32) else c.

Fixpoint to_lower_copy (s : string) : string :=
  match s with
  | EmptyString => EmptyString
  | String c s' => String (to_lower c) (to_lower_copy s')
  end.

(** The double quote of the message about the integration method. *)
Definition dquote : string := String (Ascii.ascii_of_nat 34) EmptyString.

(** The interface of [Properties], as the constructor uses it:
    [hasProperty(name)], [getFloat(name, default)] and
    [getString(name, default)]. *)
Record Properties : Type := mkProperties {
  hasProperty : string -> bool;
  getFloat : string -> Float -> Float;
  getString : string -> string -> string
}.

(** A nested volume as an object: the lookups, and the rest of the
    interface of [VolumeDataSource] that the medium uses while it is set
    up. *)
Record Volume : Type := mkVolumeObject {
  lookups : VolumeDataSource;
  getAABB : AABB;
  getStepSize : Float;
  getMaximumFloatValue : Float;
  supportsFloatLookups : bool;
  supportsSpectrumLookups : bool;
  supportsVectorLookups : bool
}.

(** [ESimpsonQuadrature = 0, EWoodcockTracking] *)
Definition method_to_int (m : EIntegrationMethod) : Z :=
  match m with
  | ESimpsonQuadrature => 0
  | EWoodcockTracking => 1
  end.

(** [(EIntegrationMethod) i].  An integer other than 0 and 1 gives a
    value that is not [ESimpsonQuadrature], which is the only enumerator
    that the operations of the medium compare [m_method] with. *)
Definition method_of_int (i : Z) : EIntegrationMethod :=
  if (i =? 0)%Z then ESimpsonQuadrature else EWoodcockTracking.

Section Setup.

Local Notation "x <- r ;; k" := (bind r (fun x => k))
  (at level 61, r at next level, right associativity).
Local Notation "' p <- r ;; k" := (bind r (fun x => let p := x in k))
  (at level 61, p pattern, r at next level, right associativity).

(** The base class [Medium] lives in another file.  [MediumBase] is the
    state of its members; its constructors, [Medium::configure],
    [Medium::addChild] and [Medium::serialize] are operations on that
    state that may end in a fatal error, and [m_densityMultiplier] and
    [m_phaseFunction] are read from it once [Medium::configure] has
    returned.  [Other] is the type of the children that are not
    volumes. *)
Variable MediumBase : Type.
Variable Other : Type.
Variable densityMultiplier : MediumBase -> Float.
Variable phaseFunction : MediumBase -> PhaseFunction.
Variable Medium_configure : MediumBase -> Result MediumBase.

(** A [ConfigurableObject] passed to [addChild]:
    [child->getClass()->derivesFrom(MTS_CLASS(VolumeDataSource))] holds
    for the first kind only. *)
Inductive ConfigurableObject : Type :=
| VolumeChild (volume : Volume)
| OtherChild (child : Other).

(** What a stream holds.  [manager->serialize(stream, object)] writes an
    object or a null reference, and [manager->getInstance(stream)] reads
    it back; [Block] is whatever the base class writes for itself. *)
Inductive Token : Type :=
| IntToken (i : Z)
| FloatToken (f : Float)
| ObjectToken (object : option Volume)
| Block (base : MediumBase).

Definition Stream : Type := list Token.

Variable Medium_new : Properties -> Result MediumBase.
Variable Medium_addChild : string -> ConfigurableObject -> MediumBase -> Result MediumBase.
Variable Medium_serialize : MediumBase -> Stream.
Variable Medium_unserialize : Stream -> Result (MediumBase * Stream).

(** Whether the build keeps the [Assert] macro ([MTS_NDEBUG] is not
    defined). *)
Variable assertions : bool.

(** The members that the constructors and [addChild] set; the three
    volumes are null references until a child is added under their
    name. *)
Record State : Type := mkState {
  st_base : MediumBase;
  st_method : EIntegrationMethod;
  st_density : option Volume;
  st_albedo : option Volume;
  st_orientation : option Volume;
  st_stepSize : Float
}.

(** [Assert(cond)]: a failed assertion is a message at level [EError]. *)
Definition Assert (cond : bool) : Result unit :=
  if assertions && negb cond then Fatal "Assertion failed" else Ok tt.

(** ** The constructor *)

Definition HeterogeneousMedium_new (props : Properties) : Result State :=
  base <- Medium_new props ;;
  let stepSize := getFloat props "stepSize" F0 in
  if hasProperty props "sigmaS" || hasProperty props "sigmaA" then
    Fatal ("The 'sigmaS' and 'sigmaA' properties are only supported by "
           ++ "homogeneous media. Please use nested volume instances to supply "
           ++ "these parameters")
  else
    let method := to_lower_copy (getString props "method" "woodcock") in
    if String.eqb method "woodcock" then
      Ok (mkState base EWoodcockTracking None None None stepSize)
    else if String.eqb method "simpson" then
      Ok (mkState base ESimpsonQuadrature None None None stepSize)
    else
      Fatal ("Unsupported integration method " ++ dquote ++ method ++ dquote ++ "!").

(** ** addChild *)

Definition set_base (st : State) (base : MediumBase) : State :=
  mkState base (st_method st) (st_density st) (st_albedo st) (st_orientation st)
    (st_stepSize st).

Definition addChild (name : string) (child : ConfigurableObject) (st : State)
  : Result State :=
  match child with
  | VolumeChild volume =>
      if String.eqb name "albedo" then
        _ <- Assert (supportsSpectrumLookups volume) ;;
        Ok (mkState (st_base st) (st_method st) (st_density st) (Some volume)
              (st_orientation st) (st_stepSize st))
      else if String.eqb name "density" then
        _ <- Assert (supportsFloatLookups volume) ;;
        Ok (mkState (st_base st) (st_method st) (Some volume) (st_albedo st)
              (st_orientation st) (st_stepSize st))
      else if String.eqb name "orientation" then
        _ <- Assert (supportsVectorLookups volume) ;;
        Ok (mkState (st_base st) (st_method st) (st_density st) (st_albedo st)
              (Some volume) (st_stepSize st))
      else
        base <- Medium_addChild name child (st_base st) ;;
        Ok (set_base st base)
  | OtherChild _ =>
      base <- Medium_addChild name child (st_base st) ;;
      Ok (set_base st base)
  end.

(** The children of a scene description, added in order. *)
Fixpoint addChildren (children : list (string * ConfigurableObject)) (st : State)
  : Result State :=
  match children with
  | [] => Ok st
  | (name, child) :: rest =>
      st <- addChild name child st ;;
      addChildren rest st
  end.

(** ** configure *)

(** The step size that [configure] infers when none was given: the
    smallest step size of the nested volumes. *)
Definition infer_stepSize (density albedo : Volume) (orientation : option Volume)
  : Result Float :=
  let stepSize := fmin (getStepSize density) (getStepSize albedo) in
  let stepSize :=
    match orientation with
    | Some o => fmin stepSize (getStepSize o)
    | None => stepSize
    end in
  if (stepSize ==? infinity)%F then
    Fatal ("Unable to infer a suitable step size for deterministic "
           ++ "integration, please specify one manually using the 'stepSize' "
           ++ "parameter.")
  else Ok stepSize.

(** The result is the object with its members as [configure] leaves
    them, and the same object as the operations of the medium see it. *)
Definition configure (st : State) : Result (State * HeterogeneousMedium) :=
  base <- Medium_configure (st_base st) ;;
  match st_density st with
  | None => Fatal "No density specified!"
  | Some density =>
      match st_albedo st with
      | None => Fatal "No albedo specified!"
      | Some albedo =>
          let densityAABB := getAABB density in
          let anisotropicMedium :=
            needsDirectionallyVaryingCoefficients (phaseFunction base) in
          let maxDensity :=
            (densityMultiplier base * getMaximumFloatValue density)%F in
          let maxDensity :=
            if anisotropicMedium
            then (maxDensity * sigmaDirMax (phaseFunction base))%F
            else maxDensity in
          let invMaxDensity := (F1 / maxDensity)%F in
          stepSize <-
            (if (st_stepSize st ==? F0)%F
             then infer_stepSize density albedo (st_orientation st)
             else Ok (st_stepSize st)) ;;
          if anisotropicMedium
             && match st_orientation st with None => true | Some _ => false end
          then
            Fatal ("Cannot use anisotropic phase function: "
                   ++ "did not specify a particle orientation field!")
          else
            Ok (mkState base (st_method st) (st_density st) (st_albedo st)
                  (st_orientation st) stepSize,
                mkMedium (st_method st) (lookups density) (lookups albedo)
                  (option_map lookups (st_orientation st)) anisotropicMedium
                  stepSize densityAABB maxDensity invMaxDensity
                  (densityMultiplier base) (phaseFunction base))
      end
  end.

(** ** Serialization *)

Definition serialize (st : State) : Stream :=
  Medium_serialize (st_base st)
  ++ [IntToken (method_to_int (st_method st));
      ObjectToken (st_density st);
      ObjectToken (st_albedo st);
      ObjectToken (st_orientation st);
      FloatToken (st_stepSize st)].

(** [stream->readInt()], [manager->getInstance(stream)] and
    [stream->readFloat()]: reading past the end of the stream, or
    something of another kind than what was written, is an error. *)
Definition readInt (stream : Stream) : Result (Z * Stream) :=
  match stream with
  | IntToken i :: rest => Ok (i, rest)
  | _ => Fatal "Stream: read error"
  end.

Definition getInstance (stream : Stream) : Result (option Volume * Stream) :=
  match stream with
  | ObjectToken object :: rest => Ok (object, rest)
  | _ => Fatal "Stream: read error"
  end.

Definition readFloat (stream : Stream) : Result (Float * Stream) :=
  match stream with
  | FloatToken f :: rest => Ok (f, rest)
  | _ => Fatal "Stream: read error"
  end.

(** The constructor that unserializes; the result also carries what is
    left of the stream. *)
Definition unserialize (stream : Stream)
  : Result (State * HeterogeneousMedium * Stream) :=
  '(base, stream) <- Medium_unserialize stream ;;
  '(i, stream) <- readInt stream ;;
  '(density, stream) <- getInstance stream ;;
  '(albedo, stream) <- getInstance stream ;;
  '(orientation, stream) <- getInstance stream ;;
  '(stepSize, stream) <- readFloat stream ;;
  '(st, medium) <-
    configure (mkState base (method_of_int i) density albedo orientation stepSize) ;;
  Ok (st, medium, stream).

End Setup.

Arguments mkState {MediumBase}.
Arguments st_base {MediumBase}.
Arguments st_method {MediumBase}.
Arguments st_density {MediumBase}.
Arguments st_albedo {MediumBase}.
Arguments st_orientation {MediumBase}.
Arguments st_stepSize {MediumBase}.
Arguments set_base {MediumBase}.
Arguments VolumeChild {Other}.
Arguments OtherChild {Other}.
Arguments IntToken {MediumBase}.
Arguments FloatToken {MediumBase}.
Arguments ObjectToken {MediumBase}.
Arguments Block {MediumBase}.
Arguments configure {MediumBase}.
Arguments addChild {MediumBase Other}.
Arguments addChildren {MediumBase Other}.
Arguments HeterogeneousMedium_new {MediumBase}.
Arguments serialize {MediumBase}.
Arguments unserialize {MediumBase}.

(** ** Polynomial densities *)



(** ** Stand-ins for the base class and the scene description *)

(** A base class, a scene description and volumes to run the set-up on,
    and a few more media for the operations. *)
Module Workshop.
Import Scene Cases.

(** The members of the base class that the medium reads: the density
    multiplier and the phase function. *)
Definition MediumBase : Type := (Float * PhaseFunction)%type.

Definition densityMultiplier (b : MediumBase) : Float := fst b.
Definition phaseFunction (b : MediumBase) : PhaseFunction := snd b.

Definition Medium_configure (b : MediumBase) : Result MediumBase := Ok b.

(** A property is a number or a string. *)
Inductive PropertyValue : Set :=
| FloatValue (f : Float)
| StringValue (s : string).

Fixpoint find_property (l : list (string * PropertyValue)) (name : string)
  : option PropertyValue :=
  match l with
  | [] => None
  | (n, v) :: l' => if String.eqb n name then Some v else find_property l' name
  end.

Definition properties_of (l : list (string * PropertyValue)) : Properties :=
  mkProperties
    (fun name => match find_property l name with Some _ => true | None => false end)
    (fun name default =>
       match find_property l name with Some (FloatValue f) => f | _ => default end)
    (fun name default =>
       match find_property l name with Some (StringValue s) => s | _ => default end).

Definition Medium_new (props : Properties) : Result MediumBase :=
  Ok (getFloat props "densityMultiplier" F1, isotropic).

(** The base class takes the phase function as a child and rejects a
    volume that the medium did not take. *)
Definition Medium_addChild (name : string) (child : ConfigurableObject PhaseFunction)
    (b : MediumBase) : Result MediumBase :=
  match child with
  | OtherChild phase => Ok (fst b, phase)
  | VolumeChild _ => Fatal "Medium: unsupported child"
  end.

Definition Medium_serialize (b : MediumBase) : Stream MediumBase := Block b :: nil.

Definition Medium_unserialize (stream : Stream MediumBase)
  : Result (MediumBase * Stream MediumBase) :=
  match stream with
  | Block b :: rest => Ok (b, rest)
  | _ => Fatal "Stream: read error"
  end.

(** A volume over the unit cube with the same density everywhere, which
    is also its maximum, albedo 1/2, fibres along the z axis, and a
    given step size. *)
Definition grid (density stepSize : Float) : Volume :=
  mkVolumeObject (constant_volume density (Fq 1 2) (mkVector F0 F0 F1))
    unit_box stepSize density true true true.

Definition density_grid : Volume := grid F1 (Fq 1 4).
Definition albedo_grid : Volume := grid F1 (Fq 1 8).
Definition orientation_grid : Volume := grid F1 infinity.

(** Two scene descriptions. *)
Definition bare_props : Properties := properties_of [].
Definition simpson_props : Properties :=
  properties_of [("method", StringValue "Simpson"); ("stepSize", FloatValue (Fq 1 2))]%string.

(** Objects before [configure]: the step size left to be inferred, and a
    medium of fibres. *)
Definition inferred_state : State MediumBase :=
  mkState (F1, isotropic) ESimpsonQuadrature (Some density_grid) (Some albedo_grid)
    (Some orientation_grid) F0.
Definition inferred_state_without_orientation : State MediumBase :=
  mkState (F1, isotropic) ESimpsonQuadrature (Some density_grid) (Some albedo_grid)
    None F0.
Definition fibre_state : State MediumBase :=
  mkState (F1, fibres) ESimpsonQuadrature (Some density_grid) (Some albedo_grid)
    (Some orientation_grid) (Fq 1 2).

(** What an operation has returned, and a given value if it has not. *)
Definition accepted {A : Type} (default : A) (r : Result A) : A :=
  match r with
  | Ok a => a
  | Fatal _ => default
  end.

Definition returned {A : Type} (default : A) (r : option A) : A :=
  match r with
  | Some a => a
  | None => default
  end.

Definition configured (st : State MediumBase) : State MediumBase * HeterogeneousMedium :=
  accepted (st, vacuum_medium)
    (configure densityMultiplier phaseFunction Medium_configure st).

(** The unit cube with nothing in it under Woodcock tracking: the
    majorant is 0. *)
Definition vacuum_woodcock_medium : HeterogeneousMedium :=
  constant_medium EWoodcockTracking F0 (Fq 1 2) unit_box.


(** A sampler that draws 99/100, for a target beyond the optical depth
    of the unit cube. *)
Definition late_sampler : Sampler := constant_sampler (Fq 99 100).

End Workshop.


(* ================================================================== *)
(** * Properties *)
(* ================================================================== *)

(** ** Facts about the exact floats *)

Ltac qc2q :=
  unfold Qclt, Qcle, Qcminus, Qcdiv, Qcplus, Qcmult, Qcopp, Qcinv in *;
  cbn [this Q2Qc] in *;
  repeat (rewrite Qred_correct in * ).

Lemma Qc_ltb_iff (a b : Qc) : Qc_ltb a b = true <-> a < b.
Proof.
  unfold Qc_ltb, Qclt. rewrite negb_true_iff.
  split; intro H.
  - apply Qnot_le_lt. intro Hle. apply Qle_bool_iff in Hle. congruence.
  - destruct (Qle_bool b a) eqn:E; [|reflexivity].
    apply Qle_bool_iff in E. exfalso. exact (Qlt_not_le _ _ H E).
Qed.

Lemma Qc_ltb_false_iff (a b : Qc) : Qc_ltb a b = false <-> b <= a.
Proof.
  unfold Qc_ltb, Qcle. rewrite negb_false_iff. apply Qle_bool_iff.
Qed.

Lemma Qc_leb_iff (a b : Qc) : Qc_leb a b = true <-> a <= b.
Proof. apply Qle_bool_iff. Qed.

Lemma Qc_eqb_iff (a b : Qc) : Qc_eqb a b = true <-> a = b.
Proof.
  unfold Qc_eqb. rewrite Qeq_bool_iff. split.
  - apply Qc_is_canon.
  - intros ->. reflexivity.
Qed.


Lemma fneg_F0 : (- F0)%F = F0.
Proof. reflexivity. Qed.

Lemma fmul_F0_not_positive (x y : Float) :
  x = F0 \/ y = F0 -> (x * y >? F0)%F = false.
Proof.
  intros [-> | ->].
  - destruct y as [b| | |]; try reflexivity.
  - destruct x as [a| | |]; try reflexivity.
    unfold F0, fgt; cbn. replace (a * 0) with 0 by ring. reflexivity.
Qed.

Section Properties.

Variable Epsilon : Float.
Variable SPECTRUM_SAMPLES : nat.
Variable exp : Float -> Float.
Variable log : Float -> Float.
Variable rayIntersect : AABB -> Ray -> option (Float * Float).
Variable self : HeterogeneousMedium.

Local Abbreviation lookupDensity' := (lookupDensity self).
Local Abbreviation integrateDensity' := (integrateDensity Epsilon log rayIntersect self).
Local Abbreviation invertDensityIntegral' := (invertDensityIntegral rayIntersect self).
Local Abbreviation getTransmittance' :=
  (getTransmittance Epsilon SPECTRUM_SAMPLES exp log rayIntersect self).
Local Abbreviation sampleDistance' :=
  (sampleDistance SPECTRUM_SAMPLES exp log rayIntersect self).
Local Abbreviation pdfDistance' :=
  (pdfDistance Epsilon SPECTRUM_SAMPLES exp log rayIntersect self).
Local Abbreviation Spectrum_of' := (Spectrum_of SPECTRUM_SAMPLES).

(** ** Transmittance *)

Lemma Spectrum_of_channels (v : Float) :
  Forall (fun c => c = v) (Spectrum_of' v) /\
  List.length (Spectrum_of' v) = SPECTRUM_SAMPLES.
Proof.
  unfold Spectrum_of. split.
  - apply Forall_forall. intros c Hc. exact (repeat_spec _ _ _ Hc).
  - apply repeat_length.
Qed.

(** C2.  Under the Simpson quadrature strategy, [getTransmittance]
    returns [exp(-integrateDensity(ray))], the same value in every
    spectral channel, for every ray, whatever sampler is passed (a null
    one included) and without drawing from it. *)
Theorem getTransmittance_quadrature (fuel : nat) (ray : Ray) (sampler : option Sampler) :
  m_method self = ESimpsonQuadrature ->
  getTransmittance' fuel ray sampler
    = Some (Spectrum_of' (exp (- integrateDensity' ray)%F), sampler)
  /\ Forall (fun c => c = exp (- integrateDensity' ray)%F)
       (Spectrum_of' (exp (- integrateDensity' ray)%F)).
Proof.
  intro Hm. split.
  - unfold getTransmittance. rewrite Hm. reflexivity.
  - apply Spectrum_of_channels.
Qed.

(** C5, as the code has it.  Under Woodcock tracking a call of
    [getTransmittance] without a sampler does not fail: it takes the
    deterministic branch and returns [exp(-integrateDensity(ray))]. *)
Theorem getTransmittance_woodcock_null_sampler (fuel : nat) (ray : Ray) :
  m_method self = EWoodcockTracking ->
  getTransmittance' fuel ray None
    = Some (Spectrum_of' (exp (- integrateDensity' ray)%F), None).
Proof.
  intro Hm. unfold getTransmittance. rewrite Hm. reflexivity.
Qed.

(** ** pdfDistance *)

(** C4.  Under Woodcock tracking [pdfDistance] ends in the fatal error
    and yields no record, for every ray; under the Simpson quadrature it
    completes with a record. *)
Theorem pdfDistance_fatal_under_woodcock (ray : Ray) (mRec : MediumSamplingRecord) :
  (m_method self = EWoodcockTracking ->
     (exists msg, pdfDistance' ray mRec = Fatal msg) /\
     (forall r, pdfDistance' ray mRec <> Ok r)) /\
  (m_method self = ESimpsonQuadrature ->
     exists r, pdfDistance' ray mRec = Ok r).
Proof.
  unfold pdfDistance. split; intros ->.
  - split; [eauto | discriminate].
  - eauto.
Qed.

(** ** Distance sampling *)

Lemma woodcock_walk_fields (fuel : nat) (ray : Ray) (maxt t : Float)
    (mRec mRec' : MediumSamplingRecord) (s s' : Sampler) (ok : bool) :
  woodcock_walk SPECTRUM_SAMPLES log self fuel ray maxt t mRec s = Some (ok, mRec', s') ->
  mrec_pdfFailure mRec' = mrec_pdfFailure mRec /\
  mrec_pdfSuccess mRec' = mrec_pdfSuccess mRec /\
  mrec_pdfSuccessRev mRec' = mrec_pdfSuccessRev mRec /\
  (ok = false -> mRec' = mRec) /\
  (ok = true ->
     mrec_transmittance mRec'
       = spectrum_div (lookupSpectrum (m_albedo self) (mrec_p mRec'))
           (mrec_sigmaS mRec')).
Proof.
  revert t s. induction fuel as [|fuel IH]; intros t s; cbn [woodcock_walk].
  - discriminate.
  - destruct (next1D s) as [xi s1].
    destruct (fge _ maxt).
    + intros [= <- <- <-]. repeat split; congruence.
    + destruct (next1D s1) as [xi' s2].
      destruct (fgt _ xi').
      * intros [= <- <- <-]. repeat split; try reflexivity. discriminate.
      * apply IH.
Qed.

(** What a call of [sampleDistance] under Woodcock tracking leaves in the
    record, when it returns. *)
Lemma sampleDistance_woodcock_fields (fuel : nat) (ray : Ray)
    (mRec mRec' : MediumSamplingRecord) (sampler sampler' : Sampler) (ok : bool) :
  m_method self = EWoodcockTracking ->
  sampleDistance' fuel ray mRec sampler = Some (ok, mRec', sampler') ->
  mrec_pdfSuccess mRec' = F1 /\
  mrec_pdfFailure mRec' = F1 /\
  mrec_pdfSuccessRev mRec' = F1 /\
  (ok = false -> mrec_transmittance mRec' = Spectrum_of' F1) /\
  (ok = true ->
     mrec_transmittance mRec'
       = spectrum_div (lookupSpectrum (m_albedo self) (mrec_p mRec'))
           (mrec_sigmaS mRec')).
Proof.
  intros Hm. unfold sampleDistance. rewrite Hm.
  destruct (rayIntersect _ ray) as [[mint0 maxt0]|].
  - destruct (woodcock_walk _ _ _ _ _ _ _ _) as [[[ok0 r] s0]|] eqn:W; [|discriminate].
    apply woodcock_walk_fields in W.
    destruct W as (Hf & Hs & Hr & Hno & Hyes). cbn in Hf, Hs, Hr.
    intros [= <- <- <-]. rewrite Hs. change (F1 >? F0)%F with true.
    rewrite andb_true_r. repeat split; try assumption.
    intro E. rewrite (Hno E). reflexivity.
  - intros [= <- <- <-]. cbn. repeat split; try reflexivity. discriminate.
Qed.

(** C10.  Under the Simpson quadrature [sampleDistance] always returns,
    and it returns true exactly when [invertDensityIntegral] succeeds
    and [pdfSuccess = exp(-integratedDensity) * densityAtT] is strictly
    positive.  The distance found by the inversion is in the record
    either way; a successful inversion whose [densityAtT] is zero, or
    whose exponential is zero, is reported as a failure. *)
Theorem sampleDistance_quadrature_success (fuel : nat) (ray : Ray)
    (mRec : MediumSamplingRecord) (sampler : Sampler) :
  m_method self = ESimpsonQuadrature ->
  let desiredDensity := (- log (F1 - fst (next1D sampler)))%F in
  let inv := invertDensityIntegral' ray desiredDensity (mrec_t mRec) in
  let expVal := exp (- inv_integratedDensity inv)%F in
  exists mRec',
    sampleDistance' fuel ray mRec sampler
      = Some (inv_found inv && (expVal * inv_densityAtT inv >? F0)%F,
              mRec', snd (next1D sampler)) /\
    mrec_pdfSuccess mRec' = (expVal * inv_densityAtT inv)%F /\
    mrec_t mRec' = inv_t inv /\
    (inv_found inv = true ->
     inv_densityAtT inv = F0 \/ expVal = F0 ->
     inv_found inv && (expVal * inv_densityAtT inv >? F0)%F = false).
Proof.
  intros Hm desiredDensity inv expVal.
  unfold sampleDistance. rewrite Hm.
  destruct (next1D sampler) as [xi s1] eqn:En. cbn [fst snd] in *.
  fold desiredDensity. fold inv. fold expVal.
  eexists. split; [reflexivity|]. split; [reflexivity|]. split.
  - destruct (inv_found inv); reflexivity.
  - intros -> Hz. rewrite fmul_F0_not_positive by tauto. reflexivity.
Qed.

(** ** The density lookup *)

(** C8, as the code has it.  [lookupDensity] returns the base density
    when the medium is not anisotropic or the base density is zero; for
    an anisotropic medium and a non-zero base density it returns the
    base density times [sigmaDir(dot(d, orientation))] when the
    orientation at [p] is not the zero vector, and exactly zero when it
    is.  The result is non-negative whenever the base density and the
    values of [sigmaDir] are: the code does not clamp. *)
Theorem lookupDensity_contract (p : Point) (d : Vector) :
  let base := lookupFloat (m_density self) p in
  (m_anisotropicMedium self = false \/ (base ==? F0)%F = true ->
     lookupDensity' p d = base) /\
  (forall ori,
     m_anisotropicMedium self = true -> (base ==? F0)%F = false ->
     m_orientation self = Some ori ->
     (isZero (lookupVector ori p) = false ->
        lookupDensity' p d
          = (base * sigmaDir (m_phaseFunction self) (dot d (lookupVector ori p)))%F) /\
     (isZero (lookupVector ori p) = true -> lookupDensity' p d = F0)) /\
  (nonneg base -> (forall c, nonneg (sigmaDir (m_phaseFunction self) c)) ->
     nonneg (lookupDensity' p d)).
Proof.
  intro base. unfold lookupDensity. fold base. repeat split.
  - intros [-> | ->]; [reflexivity|]. rewrite andb_false_r. reflexivity.
  - intro Hz. unfold orientation_lookupVector. rewrite H, H0, H1, Hz. reflexivity.
  - intro Hz. unfold orientation_lookupVector. rewrite H, H0, H1, Hz. reflexivity.
  - intros Hb Hs.
    destruct (m_anisotropicMedium self && negb (base ==? F0)%F); [|exact Hb].
    destruct (negb (isZero _)).
    + destruct Hb as (b & -> & Hb).
      destruct (Hs (dot d (orientation_lookupVector self p))) as (c & -> & Hc).
      exists (b * c). split; [reflexivity|]. qc2q. nra.
    + exists 0. split; [reflexivity|]. apply Qcle_refl.
Qed.

(** ** The number of sub-intervals *)




Lemma fdiv_finite (a b : Qc) : b <> 0 -> (Fin a / Fin b)%F = Fin (a / b).
Proof.
  intro Hb. unfold fdiv.
  destruct (Qc_eqb b 0) eqn:E; [|reflexivity].
  apply Qc_eqb_iff in E. contradiction.
Qed.

Lemma Qclt_neq_0 (s : Qc) : 0 < s -> s <> 0.
Proof. intros H E. rewrite E in H. exact (Qlt_irrefl _ H). Qed.







(** ** Degenerate geometry *)



End Properties.

(** ** Marching along the ray *)





Section EarlyExit.
Variable self : HeterogeneousMedium.
Hypothesis Hdens : forall p d, nonneg (lookupDensity self p d).



Variable Epsilon : Float.
Variable log : Float -> Float.
Variable rayIntersect : AABB -> Ray -> option (Float * Float).


Lemma Fz_neq_0 (n : Z) : (n <> 0)%Z -> Q2Qc (inject_Z n) <> 0.
Proof.
  intros Hn E. apply Q2Qc_eq_iff in E. apply Hn.
  unfold Qeq in E. cbn in E. lia.
Qed.




End EarlyExit.

Lemma fle_Fin (a b : Qc) : (Fin a <=? Fin b)%F = true <-> a <= b.
Proof.
  unfold fle. cbn [flt feq]. rewrite orb_true_iff, Qc_ltb_iff, Qc_eqb_iff.
  split.
  - intros [H | ->]; [apply Qclt_le_weak, H | apply Qcle_refl].
  - intro H. destruct (Qcle_lt_or_eq _ _ H); auto.
Qed.

Lemma fle_Fin_false (a b : Qc) : (Fin a <=? Fin b)%F = false <-> b < a.
Proof.
  split; intro H.
  - destruct (Qclt_le_dec b a) as [L|L]; [exact L|].
    apply fle_Fin in L. congruence.
  - destruct (Fin a <=? Fin b)%F eqn:E; [|reflexivity].
    apply fle_Fin in E. exfalso. exact (Qclt_not_le _ _ H E).
Qed.


Section Newton.
Variable self : HeterogeneousMedium.
Variables (n1 n2 n3 H I delta m : Qc).
Hypothesis HH : H <> 0.
Hypothesis Hm : m_densityMultiplier self = Fin m.




End Newton.

Lemma Qz_add (a b : Z) : Qz (a + b) = Qz a + Qz b.
Proof.
  unfold Qz. apply Qc_is_canon. unfold Qcplus. cbn [this Q2Qc].
  rewrite !Qred_correct, inject_Z_plus. reflexivity.
Qed.

Lemma Qz_le (a b : Z) : (a <= b)%Z -> Qz a <= Qz b.
Proof.
  intro H. unfold Qz, Qcle. cbn [this Q2Qc]. rewrite !Qred_correct.
  rewrite <- Zle_Qle. exact H.
Qed.

Lemma Qz_1 : Qz 1 = 1.
Proof. apply Qc_is_canon. reflexivity. Qed.

Lemma Qz_0 : Qz 0 = 0.
Proof. apply Qc_is_canon. reflexivity. Qed.

Section Invert.
Variable self : HeterogeneousMedium.
Hypothesis Hdens : forall p d, nonneg (lookupDensity self p d).
Variables (mu H c delta m : Qc).
Hypothesis HH : 0 < H.
Hypothesis Hm : m_densityMultiplier self = Fin m.


End Invert.



Lemma Qz_S (k : nat) : Qz (Z.of_nat (S k)) = Qz (Z.of_nat k) + 1.
Proof. rewrite Nat2Z.inj_succ, <- Z.add_1_r, Qz_add, Qz_1. reflexivity. Qed.





Section Marching.
Variable self : HeterogeneousMedium.
Hypothesis Hdens : forall p d, nonneg (lookupDensity self p d).
Variable rd : Vector.
Variables (x0 y0 z0 ux uy uz : Qc).
Hypothesis Hv : ux <> 0 \/ uy <> 0 \/ uz <> 0.









End Marching.



Section RoundTrip.
Variable self : HeterogeneousMedium.
Hypothesis Hdens : forall p d, nonneg (lookupDensity self p d).
Variable rayIntersect : AABB -> Ray -> option (Float * Float).





End RoundTrip.

Section RoundTrip2.
Variable self : HeterogeneousMedium.
Hypothesis Hdens : forall p d, nonneg (lookupDensity self p d).
Variable Epsilon : Float.
Variable log : Float -> Float.
Variable rayIntersect : AABB -> Ray -> option (Float * Float).


End RoundTrip2.

(** ** Segments of no length under Woodcock tracking *)

Section EmptySegment.
Variable Epsilon : Float.
Variable SPECTRUM_SAMPLES : nat.
Variable exp : Float -> Float.
Variable log : Float -> Float.
Variable rayIntersect : AABB -> Ray -> option (Float * Float).
Variable self : HeterogeneousMedium.


End EmptySegment.


(** ** Woodcock tracking returns *)

Section WoodcockReturns.
Variable SPECTRUM_SAMPLES : nat.
Variable exp : Float -> Float.
Variable log : Float -> Float.
Variable rayIntersect : AABB -> Ray -> option (Float * Float).
Variable self : HeterogeneousMedium.
Variable dr : nat -> Float.
Variable delta : Qc.
Hypothesis Hdelta : 0 < delta.
Hypothesis Hdraws :
  forall j, exists q,
    (log (F1 - dr j) * m_invMaxDensity self)%F = Fin q /\ q <= - delta.

Lemma woodcock_walk_returns (ray : Ray) (nu : Qc) (fuel : nat) :
  forall (t : Qc) (k0 : nat) (mRec : MediumSamplingRecord),
    (1 <= fuel)%nat ->
    nu - t <= Qz (Z.of_nat fuel) * delta ->
    woodcock_walk SPECTRUM_SAMPLES log self fuel ray (Fin nu) (Fin t) mRec
      (mkSampler dr k0) <> None.
Proof.
  induction fuel as [|fuel IH]; intros t k0 mRec Hfuel Hreach; [lia|].
  cbn [woodcock_walk next1D draws pos].
  destruct (Hdraws k0) as (q & -> & Hq).
  cbn [fsub fneg fadd].
  destruct (Fin (t + - q) >=? Fin nu)%F eqn:Reach; [discriminate|].
  destruct (_ >? dr (S k0))%F; [discriminate|].
  unfold fge in Reach. apply fle_Fin_false in Reach.
  rewrite Qz_S in Hreach.
  assert (Hrest : nu - (t + - q) <= Qz (Z.of_nat fuel) * delta).
  { set (qf := Qz (Z.of_nat fuel)) in *. clear - Hreach Hq. qc2q. nra. }
  apply IH; [|exact Hrest].
  destruct fuel as [|fuel]; [|lia].
  exfalso. change (Z.of_nat 0) with 0%Z in Hrest. rewrite Qz_0 in Hrest.
  clear - Hrest Reach. qc2q. lra.
Qed.

Lemma fuel_for (x : Qc) : exists fuel : nat, (1 <= fuel)%nat /\ x <= Qz (Z.of_nat fuel) * delta.
Proof.
  exists (S (Z.to_nat (Qceiling (x / delta)%Qc))). split; [lia|].
  pose proof (Qle_ceiling (x / delta)%Qc) as Hc.
  set (n := Qceiling (x / delta)%Qc) in *.
  assert (Hn : Qz n <= Qz (Z.of_nat (S (Z.to_nat n)))) by (apply Qz_le; lia).
  assert (Hx : x / delta <= Qz n).
  { unfold Qz, Qcle. cbn [this Q2Qc]. rewrite Qred_correct. exact Hc. }
  assert (E : x = x / delta * delta) by (field; apply Qclt_neq_0, Hdelta).
  rewrite E at 1. apply Qcmult_le_compat_r; [|apply Qclt_le_weak, Hdelta].
  eapply Qcle_trans; eassumption.
Qed.

Lemma sampleDistance_woodcock_returns (ray : Ray) (mRec : MediumSamplingRecord)
    (k0 : nat) (mint0 maxt0 : Float) (mu nu : Qc) :
  m_method self = EWoodcockTracking ->
  rayIntersect (m_densityAABB self) ray = Some (mint0, maxt0) ->
  fmax mint0 (ray_mint ray) = Fin mu ->
  fmin maxt0 (ray_maxt ray) = Fin nu ->
  exists fuel,
    sampleDistance SPECTRUM_SAMPLES exp log rayIntersect self fuel ray mRec
      (mkSampler dr k0) <> None.
Proof.
  intros Hm Hbox Hmint Hmaxt.
  destruct (fuel_for (nu - mu)) as (fuel & H1 & Hreach).
  exists fuel. unfold sampleDistance. rewrite Hm, Hbox, Hmint, Hmaxt.
  pose proof (woodcock_walk_returns ray nu fuel mu k0
                (set_transmittance
                   (set_pdfSuccessRev (set_pdfSuccess (set_pdfFailure mRec F1) F1) F1)
                   (Spectrum_of SPECTRUM_SAMPLES F1)) H1 Hreach) as Hw.
  destruct (woodcock_walk _ _ _ _ _ _ _ _ _) as [[[ok r] s]|]; [discriminate|].
  contradiction.
Qed.

End WoodcockReturns.

(** C6, as the code has it.  Under Woodcock tracking, whenever
    [sampleDistance] returns, [pdfSuccess], [pdfFailure] and
    [pdfSuccessRev] are exactly 1; [transmittance] is 1 in every channel
    when no collision is reported, and is [albedo / sigmaS] at the
    collision point when one is.  The call returns when the ray misses
    the bound, and, over a finite clipped segment, when every proposal
    of the sampler advances the distance by at least some [delta > 0]. *)
Theorem sampleDistance_woodcock_sentinels
    (SPECTRUM_SAMPLES : nat) (exp log : Float -> Float)
    (rayIntersect : AABB -> Ray -> option (Float * Float))
    (self : HeterogeneousMedium)
    (ray : Ray) (mRec : MediumSamplingRecord) (sampler : Sampler) :
  m_method self = EWoodcockTracking ->
  (forall fuel ok mRec' sampler',
     sampleDistance SPECTRUM_SAMPLES exp log rayIntersect self fuel ray mRec sampler
       = Some (ok, mRec', sampler') ->
     mrec_pdfSuccess mRec' = F1 /\
     mrec_pdfFailure mRec' = F1 /\
     mrec_pdfSuccessRev mRec' = F1 /\
     (ok = false -> mrec_transmittance mRec' = Spectrum_of SPECTRUM_SAMPLES F1) /\
     (ok = true ->
        mrec_transmittance mRec'
          = spectrum_div (lookupSpectrum (m_albedo self) (mrec_p mRec'))
              (mrec_sigmaS mRec'))) /\
  (rayIntersect (m_densityAABB self) ray = None ->
   forall fuel,
     sampleDistance SPECTRUM_SAMPLES exp log rayIntersect self fuel ray mRec sampler
       <> None) /\
  (forall (delta mu nu : Qc) (mint0 maxt0 : Float),
     0 < delta ->
     (forall j, exists q,
        (log (F1 - draws sampler j) * m_invMaxDensity self)%F = Fin q /\
        q <= - delta) ->
     rayIntersect (m_densityAABB self) ray = Some (mint0, maxt0) ->
     fmax mint0 (ray_mint ray) = Fin mu ->
     fmin maxt0 (ray_maxt ray) = Fin nu ->
     exists fuel,
       sampleDistance SPECTRUM_SAMPLES exp log rayIntersect self fuel ray mRec sampler
         <> None).
Proof.
  intro Hm. split; [|split].
  - intros fuel ok mRec' sampler' Hrun.
    exact (sampleDistance_woodcock_fields SPECTRUM_SAMPLES exp log rayIntersect self
             fuel ray mRec mRec' sampler sampler' ok Hm Hrun).
  - intros Hmiss fuel. unfold sampleDistance. rewrite Hm, Hmiss. discriminate.
  - intros delta mu nu mint0 maxt0 Hdelta Hdraws Hbox Hmint Hmaxt.
    destruct sampler as [dr pos].
    exact (sampleDistance_woodcock_returns SPECTRUM_SAMPLES exp log rayIntersect self
             dr delta Hdelta Hdraws ray mRec pos mint0 maxt0 mu nu Hm Hbox Hmint
             Hmaxt).
Qed.

(** ** The early exit and the round trip *)



(* ================================================================== *)
(** * Further properties *)
(* ================================================================== *)

(** ** Setting the medium up *)


Section SetupProperties.
Variable MediumBase : Type.
Variable Other : Type.
Variable densityMultiplier : MediumBase -> Float.
Variable phaseFunction : MediumBase -> PhaseFunction.
Variable Medium_configure : MediumBase -> Result MediumBase.
Variable Medium_new : Properties -> Result MediumBase.
Variable Medium_addChild :
  string -> ConfigurableObject Other -> MediumBase -> Result MediumBase.
Variable Medium_serialize : MediumBase -> Stream MediumBase.
Variable Medium_unserialize : Stream MediumBase -> Result (MediumBase * Stream MediumBase).
Variable assertions : bool.

Local Abbreviation configure' := (configure densityMultiplier phaseFunction Medium_configure).
Local Abbreviation addChild' := (addChild Medium_addChild assertions).
Local Abbreviation addChildren' := (addChildren Medium_addChild assertions).

Lemma configure_inv (st st' : State MediumBase) (m : HeterogeneousMedium) :
  configure' st = Ok (st', m) ->
  exists base density albedo stepSize,
    Medium_configure (st_base st) = Ok base /\
    st_density st = Some density /\
    st_albedo st = Some albedo /\
    (if (st_stepSize st ==? F0)%F
     then infer_stepSize density albedo (st_orientation st)
     else Ok (st_stepSize st)) = Ok stepSize /\
    (needsDirectionallyVaryingCoefficients (phaseFunction base) = true ->
     st_orientation st <> None) /\
    st' = mkState base (st_method st) (st_density st) (st_albedo st)
            (st_orientation st) stepSize /\
    m = mkMedium (st_method st) (lookups density) (lookups albedo)
          (option_map lookups (st_orientation st))
          (needsDirectionallyVaryingCoefficients (phaseFunction base))
          stepSize (getAABB density)
          (if needsDirectionallyVaryingCoefficients (phaseFunction base)
           then (densityMultiplier base * getMaximumFloatValue density
                 * sigmaDirMax (phaseFunction base))%F
           else (densityMultiplier base * getMaximumFloatValue density)%F)
          (F1 / (if needsDirectionallyVaryingCoefficients (phaseFunction base)
                 then (densityMultiplier base * getMaximumFloatValue density
                       * sigmaDirMax (phaseFunction base))%F
                 else (densityMultiplier base * getMaximumFloatValue density)%F))%F
          (densityMultiplier base) (phaseFunction base).
Proof.
  unfold configure, bind.
  destruct (Medium_configure (st_base st)) as [base|]; [|discriminate].
  destruct (st_density st) as [density|]; [|discriminate].
  destruct (st_albedo st) as [albedo|]; [|discriminate].
  destruct (if (st_stepSize st ==? F0)%F then _ else _) as [stepSize|] eqn:Es;
    [|discriminate].
  destruct (needsDirectionallyVaryingCoefficients (phaseFunction base)) eqn:Ea;
    cbn [andb].
  - destruct (st_orientation st) as [o|] eqn:Eo; cbv iota; [|discriminate].
    intro H. injection H as E1 E2. subst st' m.
    exists base, density, albedo, stepSize.
    do 3 (split; [reflexivity|]). split; [exact Es|].
    split; [intros _; discriminate|]. split; [|rewrite Ea]; reflexivity.
  - cbv iota. intro H. injection H as E1 E2. subst st' m.
    exists base, density, albedo, stepSize.
    do 3 (split; [reflexivity|]). split; [exact Es|].
    split; [rewrite Ea; discriminate|]. split; [|rewrite Ea]; reflexivity.
Qed.


Lemma configure_idempotent (st st' : State MediumBase) (m : HeterogeneousMedium) :
  (forall b b', Medium_configure b = Ok b' -> Medium_configure b' = Ok b') ->
  configure' st = Ok (st', m) -> configure' st' = Ok (st', m).
Proof.
  intros Hbase Hc.
  destruct (configure_inv st st' m Hc)
    as (base & density & albedo & stepSize & Eb & Ed & Ea & Es & Ho & -> & ->).
  unfold configure, bind. cbn [st_base st_density st_albedo st_orientation st_stepSize
                                st_method].
  rewrite (Hbase _ _ Eb), Ed, Ea.
  assert (Es' : (if (stepSize ==? F0)%F
                 then infer_stepSize density albedo (st_orientation st)
                 else Ok stepSize) = Ok stepSize).
  { destruct (stepSize ==? F0)%F eqn:Z; [|reflexivity].
    destruct (st_stepSize st ==? F0)%F eqn:Z0; [exact Es|].
    injection Es as Es. rewrite Es in Z0. congruence. }
  rewrite Es'.
  destruct (needsDirectionallyVaryingCoefficients (phaseFunction base)) eqn:An;
    cbn [andb]; [|reflexivity].
  destruct (st_orientation st) as [o|]; [reflexivity|].
  exfalso. exact (Ho eq_refl eq_refl).
Qed.

Lemma method_of_to_int (m : EIntegrationMethod) : method_of_int (method_to_int m) = m.
Proof. destruct m; reflexivity. Qed.

Lemma unserialize_after_serialize (st st' : State MediumBase) (m : HeterogeneousMedium)
    (rest : Stream MediumBase) :
  (forall b s, Medium_unserialize (Medium_serialize b ++ s) = Ok (b, s)) ->
  (forall b b', Medium_configure b = Ok b' -> Medium_configure b' = Ok b') ->
  configure' st = Ok (st', m) ->
  unserialize densityMultiplier phaseFunction Medium_configure Medium_unserialize
    (serialize Medium_serialize st' ++ rest)
  = Ok (st', m, rest).
Proof.
  intros Hio Hbase Hc.
  apply (configure_idempotent _ _ _ Hbase) in Hc.
  unfold unserialize, serialize. rewrite <- app_assoc, Hio.
  cbn [bind app readInt getInstance readFloat]. rewrite method_of_to_int.
  destruct st' as [b me d a o s]. cbn [st_base st_method st_density st_albedo
                                         st_orientation st_stepSize].
  rewrite Hc. reflexivity.
Qed.

(** *** Children *)

Lemma addChild_keeps_density (name : string) (child : ConfigurableObject Other)
    (st st' : State MediumBase) :
  addChild' name child st = Ok st' ->
  (forall v, (name, child) <> ("density"%string, VolumeChild v)) ->
  st_density st' = st_density st.
Proof.
  intros H Hn. unfold addChild, bind in H.
  destruct child as [v|c].
  - destruct (String.eqb name "albedo").
    + destruct (Assert _ _); [|discriminate]. injection H as <-. reflexivity.
    + destruct (String.eqb name "density") eqn:E.
      * apply String.eqb_eq in E. subst name. exfalso. exact (Hn v eq_refl).
      * destruct (String.eqb name "orientation").
        -- destruct (Assert _ _); [|discriminate]. injection H as <-. reflexivity.
        -- destruct (Medium_addChild _ _ _); [|discriminate].
           injection H as <-. reflexivity.
  - destruct (Medium_addChild _ _ _); [|discriminate]. injection H as <-. reflexivity.
Qed.

Lemma addChild_keeps_albedo (name : string) (child : ConfigurableObject Other)
    (st st' : State MediumBase) :
  addChild' name child st = Ok st' ->
  (forall v, (name, child) <> ("albedo"%string, VolumeChild v)) ->
  st_albedo st' = st_albedo st.
Proof.
  intros H Hn. unfold addChild, bind in H.
  destruct child as [v|c].
  - destruct (String.eqb name "albedo") eqn:E.
    + apply String.eqb_eq in E. subst name. exfalso. exact (Hn v eq_refl).
    + destruct (String.eqb name "density").
      * destruct (Assert _ _); [|discriminate]. injection H as <-. reflexivity.
      * destruct (String.eqb name "orientation").
        -- destruct (Assert _ _); [|discriminate]. injection H as <-. reflexivity.
        -- destruct (Medium_addChild _ _ _); [|discriminate].
           injection H as <-. reflexivity.
  - destruct (Medium_addChild _ _ _); [|discriminate]. injection H as <-. reflexivity.
Qed.

Lemma addChildren_keep_density (children : list (string * ConfigurableObject Other)) :
  forall st st' : State MediumBase,
    addChildren' children st = Ok st' ->
    (forall v, ~ In ("density"%string, VolumeChild v) children) ->
    st_density st' = st_density st.
Proof.
  induction children as [|[name child] rest IH]; intros st st' H Hn;
    cbn [addChildren] in H.
  - injection H as <-. reflexivity.
  - unfold bind in H. destruct (addChild' name child st) as [st1|] eqn:E1; [|discriminate].
    rewrite (IH _ _ H).
    + apply (addChild_keeps_density _ _ _ _ E1).
      intros v Ev. apply (Hn v). left. exact Ev.
    + intros v Hv. apply (Hn v). right. exact Hv.
Qed.

Lemma addChildren_keep_albedo (children : list (string * ConfigurableObject Other)) :
  forall st st' : State MediumBase,
    addChildren' children st = Ok st' ->
    (forall v, ~ In ("albedo"%string, VolumeChild v) children) ->
    st_albedo st' = st_albedo st.
Proof.
  induction children as [|[name child] rest IH]; intros st st' H Hn;
    cbn [addChildren] in H.
  - injection H as <-. reflexivity.
  - unfold bind in H. destruct (addChild' name child st) as [st1|] eqn:E1; [|discriminate].
    rewrite (IH _ _ H).
    + apply (addChild_keeps_albedo _ _ _ _ E1).
      intros v Ev. apply (Hn v). left. exact Ev.
    + intros v Hv. apply (Hn v). right. exact Hv.
Qed.

Lemma new_has_no_volume (props : Properties) (st : State MediumBase) :
  HeterogeneousMedium_new Medium_new props = Ok st ->
  st_density st = None /\ st_albedo st = None /\ st_orientation st = None /\
  st_stepSize st = getFloat props "stepSize" F0.
Proof.
  unfold HeterogeneousMedium_new, bind.
  destruct (Medium_new props); [|discriminate].
  destruct (_ || _); [discriminate|].
  destruct (String.eqb _ "woodcock").
  - intros [= <-]. repeat split.
  - destruct (String.eqb _ "simpson"); [|discriminate].
    intros [= <-]. repeat split.
Qed.

End SetupProperties.

(** *** The order of the floats *)

Lemma fle_refl (x : Float) : x <> NaN -> (x <=? x)%F = true.
Proof.
  destruct x as [a| | |]; intro H; try reflexivity; [|congruence].
  apply fle_Fin, Qcle_refl.
Qed.

Lemma flt_fle (x y : Float) : (x <? y)%F = true -> (x <=? y)%F = true.
Proof. intro H. unfold fle. rewrite H. reflexivity. Qed.

Lemma flt_false_fle (x y : Float) :
  x <> NaN -> y <> NaN -> (x <? y)%F = false -> (y <=? x)%F = true.
Proof.
  destruct x as [a| | |], y as [b| | |]; intros Hx Hy H; try reflexivity;
    try congruence; try discriminate.
  cbn [flt] in H. apply Qc_ltb_false_iff in H. apply fle_Fin. exact H.
Qed.

Lemma fle_trans (x y z : Float) :
  (x <=? y)%F = true -> (y <=? z)%F = true -> (x <=? z)%F = true.
Proof.
  destruct x as [a| | |], y as [b| | |], z as [c| | |]; intros H1 H2;
    try reflexivity; try discriminate.
  apply fle_Fin in H1, H2. apply fle_Fin. eapply Qcle_trans; eassumption.
Qed.

Lemma fmin_not_NaN (a b : Float) : a <> NaN -> b <> NaN -> fmin a b <> NaN.
Proof. intros Ha Hb. unfold fmin. destruct (b <? a)%F; assumption. Qed.

Lemma fmin_le_l (a b : Float) : a <> NaN -> b <> NaN -> (fmin a b <=? a)%F = true.
Proof.
  intros Ha Hb. unfold fmin. destruct (b <? a)%F eqn:E.
  - apply flt_fle, E.
  - apply fle_refl, Ha.
Qed.

Lemma fmin_le_r (a b : Float) : a <> NaN -> b <> NaN -> (fmin a b <=? b)%F = true.
Proof.
  intros Ha Hb. unfold fmin. destruct (b <? a)%F eqn:E.
  - apply fle_refl, Hb.
  - apply flt_false_fle; assumption.
Qed.

Lemma feq_infinity (x : Float) : (x ==? infinity)%F = false <-> x <> infinity.
Proof.
  unfold infinity. destruct x; cbn [feq]; split; congruence.
Qed.

Section SetupTheorems.
Variable MediumBase : Type.
Variable Other : Type.
Variable densityMultiplier : MediumBase -> Float.
Variable phaseFunction : MediumBase -> PhaseFunction.
Variable Medium_configure : MediumBase -> Result MediumBase.
Variable Medium_new : Properties -> Result MediumBase.
Variable Medium_addChild :
  string -> ConfigurableObject Other -> MediumBase -> Result MediumBase.
Variable Medium_serialize : MediumBase -> Stream MediumBase.
Variable Medium_unserialize : Stream MediumBase -> Result (MediumBase * Stream MediumBase).
Variable assertions : bool.

Local Abbreviation configure' := (configure densityMultiplier phaseFunction Medium_configure).
Local Abbreviation addChild' := (addChild Medium_addChild assertions).
Local Abbreviation addChildren' := (addChildren Medium_addChild assertions).

(** X1.  The constructor.  Once the constructor of the base class has
    returned, [HeterogeneousMedium(props)] returns an object exactly
    when [props] has neither a [sigmaS] nor a [sigmaA] property and the
    [method] property, [woodcock] when absent, is [woodcock] or
    [simpson] up to the case of its letters; any other method name is a
    fatal error.  The object has the step size of the [stepSize]
    property, 0 when absent, and no volume. *)
Theorem constructor_accepts (props : Properties) (base : MediumBase) :
  Medium_new props = Ok base ->
  let method := to_lower_copy (getString props "method" "woodcock") in
  let stepSize := getFloat props "stepSize" F0 in
  (forall st,
     HeterogeneousMedium_new Medium_new props = Ok st <->
     hasProperty props "sigmaS" = false /\ hasProperty props "sigmaA" = false /\
     (method = "woodcock"%string /\
        st = mkState base EWoodcockTracking None None None stepSize \/
      method = "simpson"%string /\
        st = mkState base ESimpsonQuadrature None None None stepSize)) /\
  (method <> "woodcock"%string -> method <> "simpson"%string ->
   exists msg, HeterogeneousMedium_new Medium_new props = Fatal msg).
Proof.
  intros Hb method stepSize. unfold HeterogeneousMedium_new, bind. rewrite Hb.
  fold method stepSize. split.
  - intro st. split.
    + destruct (hasProperty props "sigmaS"); [discriminate|].
      destruct (hasProperty props "sigmaA"); [discriminate|]. cbn [orb].
      destruct (String.eqb method "woodcock") eqn:Ew.
      * apply String.eqb_eq in Ew. intros [= <-]. auto.
      * destruct (String.eqb method "simpson") eqn:Es; [|discriminate].
        apply String.eqb_eq in Es. intros [= <-]. auto.
    + intros (-> & -> & [(Em & ->) | (Em & ->)]); cbn [orb]; rewrite Em; reflexivity.
  - intros Hw Hs. apply String.eqb_neq in Hw, Hs. rewrite Hw, Hs.
    destruct (_ || _); eexists; reflexivity.
Qed.

(** X2.  The constructor, [addChild] and [configure].  An object that
    comes from the constructor and to which no volume was added under
    the name [density], or none under the name [albedo], is never
    accepted by [configure], whatever other children it was given. *)
Theorem configure_needs_volumes (props : Properties)
    (children : list (string * ConfigurableObject Other))
    (st0 st : State MediumBase) :
  HeterogeneousMedium_new Medium_new props = Ok st0 ->
  addChildren' children st0 = Ok st ->
  (forall v, ~ In ("density"%string, VolumeChild v) children) \/
  (forall v, ~ In ("albedo"%string, VolumeChild v) children) ->
  forall r, configure' st <> Ok r.
Proof.
  intros Hnew Hadd Hno [st' m] Hc.
  destruct (new_has_no_volume _ Medium_new props st0 Hnew) as (Hd & Ha & _).
  destruct (configure_inv _ _ _ _ st st' m Hc)
    as (base & density & albedo & stepSize & _ & Ed & Ea & _).
  destruct Hno as [Hno | Hno].
  - rewrite (addChildren_keep_density _ _ Medium_addChild assertions children st0 st
               Hadd Hno) in Ed.
    congruence.
  - rewrite (addChildren_keep_albedo _ _ Medium_addChild assertions children st0 st
               Hadd Hno) in Ea.
    congruence.
Qed.

(** X3.  [addChild].  The volumes added under two different names among
    [albedo], [density] and [orientation] can be added in either order
    with the same resulting object, and a volume added under one of
    these names replaces the volume that was added under it before. *)
Theorem addChild_volumes_compose (n1 n2 : string) (v1 v2 : Volume)
    (st : State MediumBase) :
  In n1 ["albedo"; "density"; "orientation"]%string ->
  In n2 ["albedo"; "density"; "orientation"]%string ->
  (n1 <> n2 ->
   forall st',
     bind (addChild' n1 (VolumeChild v1) st) (addChild' n2 (VolumeChild v2)) = Ok st' <->
     bind (addChild' n2 (VolumeChild v2) st) (addChild' n1 (VolumeChild v1)) = Ok st') /\
  (n1 = n2 ->
   forall st1,
     addChild' n1 (VolumeChild v1) st = Ok st1 ->
     addChild' n2 (VolumeChild v2) st1 = addChild' n2 (VolumeChild v2) st).
Proof.
  intros H1 H2.
  cbn [In] in H1, H2.
  destruct H1 as [<- | [<- | [<- | []]]], H2 as [<- | [<- | [<- | []]]];
    (split; [intros Hne st'; try congruence | intros Heq st1; try discriminate]);
    unfold addChild, bind; cbn [String.eqb Ascii.eqb Bool.eqb andb];
    unfold Assert;
    try (destruct (assertions && negb _); [discriminate|]; intros [= <-];
         reflexivity);
    destruct (assertions && negb _), (assertions && negb _); cbn; split; congruence.
Qed.

(** X4.  [configure] accepts an object exactly when [Medium::configure]
    does, a density and an albedo volume are present, the step size is
    given (not 0) or the smallest step size of the volumes is not
    infinity, and the phase function has no directionally varying
    coefficients or an orientation volume is present. *)
Theorem configure_accepts_iff (st : State MediumBase) :
  (exists r, configure' st = Ok r) <->
  exists base density albedo,
    Medium_configure (st_base st) = Ok base /\
    st_density st = Some density /\
    st_albedo st = Some albedo /\
    ((st_stepSize st ==? F0)%F = true ->
     match st_orientation st with
     | Some o => fmin (fmin (getStepSize density) (getStepSize albedo)) (getStepSize o)
     | None => fmin (getStepSize density) (getStepSize albedo)
     end <> infinity) /\
    (needsDirectionallyVaryingCoefficients (phaseFunction base) = true ->
     st_orientation st <> None).
Proof.
  split.
  - intros [[st' m] Hc].
    destruct (configure_inv _ _ _ _ st st' m Hc)
      as (base & density & albedo & stepSize & Eb & Ed & Ea & Es & Ho & _).
    exists base, density, albedo. repeat (split; [assumption|]).
    split; [|exact Ho].
    intro Z. rewrite Z in Es. unfold infer_stepSize in Es.
    apply feq_infinity.
    destruct (_ ==? infinity)%F; [discriminate | reflexivity].
  - intros (base & density & albedo & Eb & Ed & Ea & Hs & Ho).
    unfold configure, bind. rewrite Eb, Ed, Ea.
    assert (Es : exists s, (if (st_stepSize st ==? F0)%F
                            then infer_stepSize density albedo (st_orientation st)
                            else Ok (st_stepSize st)) = Ok s).
    { destruct (st_stepSize st ==? F0)%F; [|eexists; reflexivity].
      unfold infer_stepSize. apply feq_infinity in Hs; [|reflexivity].
      rewrite Hs. eexists. reflexivity. }
    destruct Es as (s & ->).
    destruct (needsDirectionallyVaryingCoefficients (phaseFunction base));
      cbn [andb]; [|eexists; reflexivity].
    destruct (st_orientation st); [eexists; reflexivity|].
    exfalso. exact (Ho eq_refl eq_refl).
Qed.

(** X5.  A medium that [configure] has accepted and that is anisotropic
    has an orientation volume: the pointer [m_orientation] that
    [lookupDensity] follows is never null. *)
Theorem configured_anisotropic_has_orientation (st st' : State MediumBase)
    (m : HeterogeneousMedium) :
  configure' st = Ok (st', m) ->
  m_anisotropicMedium m = true ->
  exists o,
    st_orientation st = Some o /\
    m_orientation m = Some (lookups o) /\
    forall p, orientation_lookupVector m p = lookupVector (lookups o) p.
Proof.
  intros Hc Han.
  destruct (configure_inv _ _ _ _ st st' m Hc)
    as (base & density & albedo & stepSize & _ & _ & _ & _ & Ho & _ & ->).
  cbn [m_anisotropicMedium] in Han. specialize (Ho Han).
  destruct (st_orientation st) as [o|] eqn:Eo; [|congruence].
  exists o. split; [reflexivity|]. split; [reflexivity|].
  intro p. reflexivity.
Qed.

(** X6.  The step size after [configure].  A step size other than 0 is
    kept.  A step size of 0 is replaced by one that is not infinity and
    that, when no volume reports a NaN, is at most the step size of
    every volume of the medium and is the step size of one of them. *)
Theorem configure_infers_stepSize (st st' : State MediumBase) (m : HeterogeneousMedium) :
  configure' st = Ok (st', m) ->
  m_stepSize m = st_stepSize st' /\
  ((st_stepSize st ==? F0)%F = false -> m_stepSize m = st_stepSize st) /\
  ((st_stepSize st ==? F0)%F = true ->
   m_stepSize m <> infinity /\
   ((forall v, In (Some v) [st_density st; st_albedo st; st_orientation st] ->
               getStepSize v <> NaN) ->
    (forall v, In (Some v) [st_density st; st_albedo st; st_orientation st] ->
               (m_stepSize m <=? getStepSize v)%F = true) /\
    (exists v, In (Some v) [st_density st; st_albedo st; st_orientation st] /\
               m_stepSize m = getStepSize v))).
Proof.
  intro Hc.
  destruct (configure_inv _ _ _ _ st st' m Hc)
    as (base & density & albedo & stepSize & _ & Ed & Ea & Es & _ & -> & ->).
  cbn [m_stepSize st_stepSize]. split; [reflexivity|]. split.
  - intro Z. rewrite Z in Es. congruence.
  - intro Z. rewrite Z in Es. unfold infer_stepSize in Es.
    destruct (_ ==? infinity)%F eqn:Einf; [discriminate|].
    injection Es as <-. split; [apply feq_infinity, Einf|].
    rewrite Ed, Ea. intro Hnan.
    assert (Hd : getStepSize density <> NaN) by (apply Hnan; cbn; auto).
    assert (Ha : getStepSize albedo <> NaN) by (apply Hnan; cbn; auto).
    pose proof (fmin_le_l _ _ Hd Ha) as L1.
    pose proof (fmin_le_r _ _ Hd Ha) as L2.
    pose proof (fmin_not_NaN _ _ Hd Ha) as N.
    destruct (st_orientation st) as [o|].
    + assert (Hno : getStepSize o <> NaN) by (apply Hnan; cbn; auto).
      pose proof (fmin_le_l _ _ N Hno) as L3.
      pose proof (fmin_le_r _ _ N Hno) as L4.
      split.
      * intros v [[= <-] | [[= <-] | [[= <-] | []]]];
          [exact (fle_trans _ _ _ L3 L1) | exact (fle_trans _ _ _ L3 L2) | exact L4].
      * unfold fmin at 1. destruct (getStepSize o <? _)%F.
        -- exists o. cbn; auto.
        -- unfold fmin. destruct (getStepSize albedo <? _)%F;
             [exists albedo | exists density]; cbn; auto.
    + split.
      * intros v [[= <-] | [[= <-] | [[=] | []]]]; assumption.
      * unfold fmin. destruct (getStepSize albedo <? _)%F;
          [exists albedo | exists density]; cbn; auto.
Qed.


(** X8.  Serialization round trip.  Assume that the base class reads
    back what it writes and that [Medium::configure] changes nothing
    when it is run again.  Then unserializing what [serialize] has
    written for a configured medium gives the same members, the same
    medium and what follows in the stream: [serialize] and the
    unserializing constructor agree on the order and the kinds of the
    members, the integration method survives the conversion to [int],
    and the [configure] that the constructor runs gives the same medium
    again. *)
Theorem serialize_round_trip (st st' : State MediumBase) (m : HeterogeneousMedium)
    (rest : Stream MediumBase) :
  (forall b s, Medium_unserialize (Medium_serialize b ++ s) = Ok (b, s)) ->
  (forall b b', Medium_configure b = Ok b' -> Medium_configure b' = Ok b') ->
  configure' st = Ok (st', m) ->
  unserialize densityMultiplier phaseFunction Medium_configure Medium_unserialize
    (serialize Medium_serialize st' ++ rest)
  = Ok (st', m, rest).
Proof.
  intros Hio Hbase Hc.
  exact (unserialize_after_serialize _ _ _ _ _ _ st st' m rest Hio Hbase Hc).
Qed.

End SetupTheorems.

(** ** The fitted quadratic *)









(** ** The two marches use the same nodes *)


(** ** What a failed inversion leaves behind *)

Lemma invert_loop_failure self rd fullStep halfStep mint stepSize multiplier D t0 dm
    (k : nat) :
  forall i p node1 a,
    let r := invert_loop self rd fullStep halfStep mint stepSize multiplier D t0 dm
               k i p node1 a in
    inv_densityAtMinT r = dm /\
    (inv_found r = false -> inv_t r = t0 /\ inv_densityAtT r = F0).
Proof.
  induction k as [|k IH]; intros i p node1 a; cbn [invert_loop].
  - cbn. auto.
  - destruct (_ >=? D)%F.
    + destruct (newton_bisection _ _ _ _ _ _ _ _ _ _ _ _) as [[[X Iv] dv]|]; cbn.
      * split; [reflexivity | discriminate].
      * auto.
    + destruct (point_eqb _ _); [cbn; auto|]. apply IH.
Qed.

Lemma invert_failure rayIntersect self (ray : Ray) (D t0 : Float) :
  let r := invertDensityIntegral rayIntersect self ray D t0 in
  inv_found r = false -> inv_t r = t0 /\ inv_densityAtT r = F0.
Proof.
  unfold invertDensityIntegral.
  destruct (rayIntersect _ ray) as [[mint0 maxt0]|]; [|cbn; auto].
  destruct (_ <? _)%F; [cbn; auto|].
  apply invert_loop_failure.
Qed.

(** X11.  When [invertDensityIntegral] returns false, whatever the
    reason (the ray misses the volume, the segment is degenerate, the
    target is not reached, the march makes no progress, or the
    Newton-Bisection solve gives up), [t] still holds the value it had
    before the call and [densityAtT] is 0. *)
Theorem invertDensityIntegral_failure_outputs
    (rayIntersect : AABB -> Ray -> option (Float * Float))
    (self : HeterogeneousMedium) (ray : Ray) (desiredDensity t0 : Float) :
  let r := invertDensityIntegral rayIntersect self ray desiredDensity t0 in
  inv_found r = false -> inv_t r = t0 /\ inv_densityAtT r = F0.
Proof. exact (invert_failure rayIntersect self ray desiredDensity t0). Qed.

(** X12.  The output [densityAtMinT] of [invertDensityIntegral] does not
    depend on the target or on the outcome of the search: it is the
    local extinction at [ray(ray.mint)] when the segment is not
    degenerate and the ray starts inside the volume (clipping leaves
    [ray.mint] as it is), and 0 otherwise. *)
Theorem invertDensityIntegral_densityAtMinT
    (rayIntersect : AABB -> Ray -> option (Float * Float))
    (self : HeterogeneousMedium) (ray : Ray) (desiredDensity t0 : Float) :
  inv_densityAtMinT (invertDensityIntegral rayIntersect self ray desiredDensity t0)
  = match rayIntersect (m_densityAABB self) ray with
    | None => F0
    | Some (mint0, maxt0) =>
        let mint := fmax mint0 (ray_mint ray) in
        let maxt := fmin maxt0 (ray_maxt ray) in
        if (maxt - mint <? Fq 1 1000000
                           * maxComp_of (ray_at ray mint) (ray_at ray maxt))%F
        then F0
        else if (ray_mint ray ==? mint)%F
             then (lookupDensity self (ray_at ray (ray_mint ray)) (ray_d ray)
                   * m_densityMultiplier self)%F
             else F0
    end.
Proof.
  unfold invertDensityIntegral.
  destruct (rayIntersect _ ray) as [[mint0 maxt0]|]; [|reflexivity].
  cbv zeta. destruct (_ <? _)%F; [reflexivity|].
  rewrite (proj1 (invert_loop_failure _ _ _ _ _ _ _ _ _ _ _ _ _ _ _)).
  destruct (ray_mint ray ==? fmax mint0 (ray_mint ray))%F eqn:E; [|reflexivity].
  (* the two parameters are equal as numbers, hence the same point *)
  assert (Et : fmax mint0 (ray_mint ray) = ray_mint ray).
  { destruct (ray_mint ray) as [a| | |], (fmax mint0 _) as [b| | |];
      try discriminate; try reflexivity.
    cbn [feq] in E. apply Qc_eqb_iff in E. congruence. }
  rewrite Et. reflexivity.
Qed.

(** ** Calls that report no collision *)

Section NoCollision.
Variable SPECTRUM_SAMPLES : nat.
Variable exp : Float -> Float.
Variable log : Float -> Float.
Variable rayIntersect : AABB -> Ray -> option (Float * Float).
Variable self : HeterogeneousMedium.

Local Abbreviation sampleDistance' :=
  (sampleDistance SPECTRUM_SAMPLES exp log rayIntersect self).

Lemma sampleDistance_quadrature_failure (fuel : nat) (ray : Ray)
    (mRec : MediumSamplingRecord) (sampler : Sampler) :
  m_method self = ESimpsonQuadrature ->
  let inv := invertDensityIntegral rayIntersect self ray
               (- log (F1 - draws sampler (pos sampler)))%F (mrec_t mRec) in
  inv_found inv = false ->
  let expVal := exp (- inv_integratedDensity inv)%F in
  sampleDistance' fuel ray mRec sampler
  = Some (false,
          set_transmittance
            (set_pdfSuccessRev
               (set_pdfSuccess (set_pdfFailure mRec expVal) (expVal * F0)%F)
               (expVal * inv_densityAtMinT inv)%F)
            (Spectrum_of SPECTRUM_SAMPLES expVal),
          snd (next1D sampler)).
Proof.
  intros Hm inv Hf expVal.
  destruct (invert_failure rayIntersect self ray
              (- log (F1 - draws sampler (pos sampler)))%F (mrec_t mRec) Hf)
    as (Et & Ed).
  fold inv in Et, Ed.
  unfold sampleDistance. rewrite Hm. cbn [next1D snd].
  fold inv. rewrite Hf, Et, Ed. fold expVal.
  cbn [andb]. destruct mRec. reflexivity.
Qed.

End NoCollision.

(** X13.  A call of [sampleDistance] that finds no collision leaves the
    members [t], [p], [orientation], [sigmaA], [sigmaS] and [albedo] of
    the record as they were: under Woodcock tracking whenever it returns
    false, and under the Simpson quadrature whenever the inversion fails,
    in which case it returns false after exactly one draw. *)
Theorem sampleDistance_no_collision_keeps_record
    (SPECTRUM_SAMPLES : nat) (exp log : Float -> Float)
    (rayIntersect : AABB -> Ray -> option (Float * Float))
    (self : HeterogeneousMedium) (fuel : nat) (ray : Ray)
    (mRec mRec' : MediumSamplingRecord) (sampler sampler' : Sampler) (ok : bool) :
  sampleDistance SPECTRUM_SAMPLES exp log rayIntersect self fuel ray mRec sampler
    = Some (ok, mRec', sampler') ->
  (m_method self = EWoodcockTracking /\ ok = false) \/
  (m_method self = ESimpsonQuadrature /\
   inv_found (invertDensityIntegral rayIntersect self ray
                (- log (F1 - draws sampler (pos sampler)))%F (mrec_t mRec)) = false) ->
  ok = false /\
  mrec_t mRec' = mrec_t mRec /\
  mrec_p mRec' = mrec_p mRec /\
  mrec_orientation mRec' = mrec_orientation mRec /\
  mrec_sigmaA mRec' = mrec_sigmaA mRec /\
  mrec_sigmaS mRec' = mrec_sigmaS mRec /\
  mrec_albedo mRec' = mrec_albedo mRec /\
  (m_method self = ESimpsonQuadrature -> sampler' = snd (next1D sampler)).
Proof.
  intros Hrun [(Hm & Hok) | (Hm & Hf)].
  - subst ok. split; [reflexivity|].
    unfold sampleDistance in Hrun. rewrite Hm in Hrun.
    destruct (rayIntersect _ ray) as [[mint0 maxt0]|].
    + destruct (woodcock_walk _ _ _ _ _ _ _ _ _) as [[[ok r] s]|] eqn:W; [|discriminate].
      injection Hrun as Hok <- <-.
      destruct (woodcock_walk_fields SPECTRUM_SAMPLES log self _ _ _ _ _ _ _ _ _ W)
        as (_ & _ & _ & Hsame & _).
      destruct ok.
      * cbn [andb] in Hok.
        (* a reported collision cannot be turned into a failure *)
        destruct (woodcock_walk_fields SPECTRUM_SAMPLES log self _ _ _ _ _ _ _ _ _ W)
          as (_ & Hp & _).
        rewrite Hp in Hok. cbn in Hok. discriminate Hok.
      * rewrite (Hsame eq_refl). repeat split; congruence.
    + injection Hrun as <- <-. repeat split; congruence.
  - rewrite (sampleDistance_quadrature_failure SPECTRUM_SAMPLES exp log rayIntersect
               self fuel ray mRec sampler Hm Hf) in Hrun.
    injection Hrun as <- <- <-. repeat split.
Qed.

(** X14.  A ray that misses the bound of the density volume never
    collides: [sampleDistance] returns false under both strategies, with
    [pdfFailure] 1 and transmittance 1 in every channel, as
    [getTransmittance] reports for the same ray.  The Simpson branch
    uses one draw on the way and sets [pdfSuccess] and [pdfSuccessRev]
    to 0; the Woodcock branch uses none. *)
Theorem sampleDistance_miss
    (SPECTRUM_SAMPLES : nat) (exp log : Float -> Float)
    (rayIntersect : AABB -> Ray -> option (Float * Float))
    (self : HeterogeneousMedium) (ray : Ray)
    (mRec : MediumSamplingRecord) (sampler : Sampler) :
  exp F0 = F1 ->
  rayIntersect (m_densityAABB self) ray = None ->
  forall fuel, exists mRec' sampler',
    sampleDistance SPECTRUM_SAMPLES exp log rayIntersect self fuel ray mRec sampler
      = Some (false, mRec', sampler') /\
    mrec_pdfFailure mRec' = F1 /\
    mrec_transmittance mRec' = Spectrum_of SPECTRUM_SAMPLES F1 /\
    match m_method self with
    | ESimpsonQuadrature =>
        mrec_pdfSuccess mRec' = F0 /\ mrec_pdfSuccessRev mRec' = F0 /\
        sampler' = snd (next1D sampler)
    | EWoodcockTracking => sampler' = sampler
    end.
Proof.
  intros Hexp Hmiss fuel.
  assert (E0 : (F1 * F0)%F = F0).
  { unfold F0, F1. cbn [fmul]. f_equal; try ring. }
  destruct (m_method self) eqn:Hm.
  - assert (Hinv : forall D t0,
              invertDensityIntegral rayIntersect self ray D t0
              = mkInversion false F0 t0 F0 F0).
    { intros D t0. unfold invertDensityIntegral. rewrite Hmiss. reflexivity. }
    rewrite (sampleDistance_quadrature_failure SPECTRUM_SAMPLES exp log rayIntersect
               self fuel ray mRec sampler Hm)
      by (rewrite Hinv; reflexivity).
    rewrite Hinv. cbn [inv_integratedDensity inv_densityAtMinT].
    rewrite fneg_F0, Hexp, E0.
    eexists. eexists. split; [reflexivity|]. cbn. auto.
  - unfold sampleDistance. rewrite Hm, Hmiss.
    eexists. eexists. split; [reflexivity|]. cbn. auto.
Qed.

(** ** The Woodcock estimate of the transmittance *)

Section WoodcockEstimate.
Variable log : Float -> Float.
Variable self : HeterogeneousMedium.

Lemma transmittance_walk_counts (fuel : nat) (ray : Ray) (maxt : Float) :
  forall (t result : Float) (smp : Sampler) r smp',
    transmittance_walk log self fuel ray maxt t result smp = Some (r, smp') ->
    r = result \/ r = (result + F1)%F.
Proof.
  induction fuel as [|fuel IH]; intros t result smp r smp'; cbn [transmittance_walk].
  - discriminate.
  - destruct (next1D smp) as [xi s1].
    destruct (_ >=? maxt)%F; [intros [= <- <-]; auto|].
    destruct (next1D s1) as [xi' s2].
    destruct (_ >? xi')%F; [intros [= <- <-]; auto|].
    apply IH.
Qed.

End WoodcockEstimate.

(** X15.  Whenever [getTransmittance] returns under Woodcock tracking
    with a sampler, its estimate is the same in every channel and is
    one of 0, 1/2 and 1: the share of the two walks that reach the end
    of the segment, whatever the medium and the draws. *)
Theorem getTransmittance_woodcock_estimate
    (Epsilon : Float) (SPECTRUM_SAMPLES : nat) (exp log : Float -> Float)
    (rayIntersect : AABB -> Ray -> option (Float * Float))
    (self : HeterogeneousMedium) (fuel : nat) (ray : Ray) (smp : Sampler)
    (s : Spectrum) (out : option Sampler) :
  m_method self = EWoodcockTracking ->
  getTransmittance Epsilon SPECTRUM_SAMPLES exp log rayIntersect self fuel ray (Some smp)
    = Some (s, out) ->
  s = Spectrum_of SPECTRUM_SAMPLES F0 \/
  s = Spectrum_of SPECTRUM_SAMPLES (Fq 1 2) \/
  s = Spectrum_of SPECTRUM_SAMPLES F1.
Proof.
  intros Hm. unfold getTransmittance. rewrite Hm.
  destruct (rayIntersect _ ray) as [[mint0 maxt0]|]; [|intros [= <- _]; auto].
  cbn [transmittance_samples].
  destruct (transmittance_walk _ _ _ _ _ _ F0 smp) as [[r1 s1]|] eqn:W1; [|discriminate].
  destruct (transmittance_walk _ _ _ _ _ _ r1 s1) as [[r2 s2]|] eqn:W2; [|discriminate].
  intros [= <- _].
  apply transmittance_walk_counts in W1, W2.
  assert (E0 : (F0 / Fz 2)%F = F0).
  { unfold F0, Fz. rewrite fdiv_finite by (apply Fz_neq_0; lia).
    f_equal; try (apply Qc_is_canon; reflexivity). }
  assert (E1 : ((F0 + F1) / Fz 2)%F = Fq 1 2).
  { unfold F0, F1, Fz, Fq. cbn [fadd]. rewrite fdiv_finite by (apply Fz_neq_0; lia).
    f_equal; try (apply Qc_is_canon; reflexivity). }
  assert (E2 : ((F0 + F1 + F1) / Fz 2)%F = F1).
  { unfold F0, F1, Fz. cbn [fadd]. rewrite fdiv_finite by (apply Fz_neq_0; lia).
    f_equal; try (apply Qc_is_canon; reflexivity). }
  change (Z.of_nat 2) with 2%Z.
  destruct W1 as [-> | ->], W2 as [-> | ->]; rewrite ?E0, ?E1, ?E2; auto.
Qed.

(** ** Woodcock tracking in an empty volume *)

Section Vacuum.
Variable SPECTRUM_SAMPLES : nat.
Variable log : Float -> Float.
Variable self : HeterogeneousMedium.
Hypothesis Hinv : m_invMaxDensity self = infinity.
Hypothesis Hempty : forall p d, lookupDensity self p d = F0.
Variable m : Qc.
Hypothesis Hmult : m_densityMultiplier self = Fin m.

Lemma vacuum_acceptance (p : Point) (d : Vector) (xi : Float) :
  (lookupDensity self p d * m_densityMultiplier self * m_invMaxDensity self >? xi)%F
  = false.
Proof.
  rewrite Hempty, Hmult, Hinv. unfold F0, infinity. cbn [fmul].
  replace (0 * m) with 0 by ring. destruct xi; reflexivity.
Qed.

Lemma woodcock_walk_lost (fuel : nat) (ray : Ray) (maxt : Float) :
  forall (mRec : MediumSamplingRecord) (smp : Sampler),
    woodcock_walk SPECTRUM_SAMPLES log self fuel ray maxt NaN mRec smp = None.
Proof.
  induction fuel as [|fuel IH]; intros mRec smp; cbn [woodcock_walk next1D].
  - reflexivity.
  - change (NaN - log (F1 - draws smp (pos smp)) * m_invMaxDensity self)%F with NaN.
    replace (NaN >=? maxt)%F with false by (destruct maxt; reflexivity).
    rewrite vacuum_acceptance. apply IH.
Qed.

Lemma transmittance_walk_lost (fuel : nat) (ray : Ray) (maxt : Float) :
  forall (result : Float) (smp : Sampler),
    transmittance_walk log self fuel ray maxt NaN result smp = None.
Proof.
  induction fuel as [|fuel IH]; intros result smp; cbn [transmittance_walk next1D].
  - reflexivity.
  - change (NaN - log (F1 - draws smp (pos smp)) * m_invMaxDensity self)%F with NaN.
    replace (NaN >=? maxt)%F with false by (destruct maxt; reflexivity).
    rewrite vacuum_acceptance. apply IH.
Qed.

Lemma first_proposal_lost (t xi : Float) :
  log F1 = F0 -> xi = F0 -> (t - log (F1 - xi) * m_invMaxDensity self)%F = NaN.
Proof.
  intros Hlog ->. replace (F1 - F0)%F with F1.
  - rewrite Hlog, Hinv. destruct t; reflexivity.
  - unfold F0, F1. cbn. f_equal; try ring; try (apply Qc_is_canon; reflexivity).
Qed.

End Vacuum.

(** X16.  Woodcock tracking in a volume with nothing in it.  When the
    majorant is 0, so that [m_invMaxDensity] is infinity, and the
    density is 0 everywhere, a first draw of exactly 0 makes the
    proposed distance [0 * infinity], which is not a number: the test
    for the end of the segment and the acceptance test then fail
    forever, and neither [sampleDistance] nor [getTransmittance]
    returns. *)
Theorem woodcock_lost_in_vacuum
    (Epsilon : Float) (SPECTRUM_SAMPLES : nat) (exp log : Float -> Float)
    (rayIntersect : AABB -> Ray -> option (Float * Float))
    (self : HeterogeneousMedium) (ray : Ray) (mRec : MediumSamplingRecord)
    (sampler : Sampler) (m : Qc) :
  m_method self = EWoodcockTracking ->
  m_invMaxDensity self = infinity ->
  (forall p d, lookupDensity self p d = F0) ->
  m_densityMultiplier self = Fin m ->
  log F1 = F0 ->
  rayIntersect (m_densityAABB self) ray <> None ->
  draws sampler (pos sampler) = F0 ->
  forall fuel,
    sampleDistance SPECTRUM_SAMPLES exp log rayIntersect self fuel ray mRec sampler
      = None /\
    getTransmittance Epsilon SPECTRUM_SAMPLES exp log rayIntersect self fuel ray
      (Some sampler) = None.
Proof.
  intros Hm Hinv Hempty Hmult Hlog Hbox Hxi fuel.
  destruct (rayIntersect _ ray) as [[mint0 maxt0]|] eqn:Ebox; [|congruence].
  split.
  - unfold sampleDistance. rewrite Hm, Ebox.
    destruct fuel as [|fuel]; [reflexivity|].
    cbn [woodcock_walk next1D].
    rewrite (first_proposal_lost log self Hinv _ _ Hlog Hxi).
    replace (NaN >=? _)%F with false by (destruct (fmin maxt0 _); reflexivity).
    rewrite (vacuum_acceptance self Hinv Hempty m Hmult).
    rewrite (woodcock_walk_lost SPECTRUM_SAMPLES log self Hinv Hempty m Hmult).
    reflexivity.
  - unfold getTransmittance. rewrite Hm, Ebox.
    cbn [transmittance_samples].
    destruct fuel as [|fuel]; [reflexivity|].
    cbn [transmittance_walk next1D].
    rewrite (first_proposal_lost log self Hinv _ _ Hlog Hxi).
    replace (NaN >=? _)%F with false by (destruct (fmin maxt0 _); reflexivity).
    rewrite (vacuum_acceptance self Hinv Hempty m Hmult).
    rewrite (transmittance_walk_lost log self Hinv Hempty m Hmult).
    reflexivity.
Qed.

(** ** Collisions *)

Section WoodcockCollision.
Variable SPECTRUM_SAMPLES : nat.
Variable log : Float -> Float.
Variable self : HeterogeneousMedium.
Variable dr : nat -> Float.
Hypothesis Hdraws :
  forall j, exists q,
    (log (F1 - dr j) * m_invMaxDensity self)%F = Fin q /\ q <= 0.

Lemma woodcock_walk_collision (ray : Ray) (nu : Qc) (fuel : nat) :
  forall (t0 : Qc) (k0 : nat) (mRec mRec' : MediumSamplingRecord) (smp' : Sampler),
    woodcock_walk SPECTRUM_SAMPLES log self fuel ray (Fin nu) (Fin t0) mRec
      (mkSampler dr k0) = Some (true, mRec', smp') ->
    exists t,
      mrec_t mRec' = Fin t /\ t0 <= t /\ t < nu /\
      mrec_p mRec' = ray_at ray (Fin t) /\
      mrec_orientation mRec' = orientation_at self (ray_at ray (Fin t)) /\
      let densityAtT :=
        (lookupDensity self (ray_at ray (Fin t)) (ray_d ray)
         * m_densityMultiplier self)%F in
      mrec_sigmaS mRec'
        = spectrum_scale (lookupSpectrum (m_albedo self) (ray_at ray (Fin t)))
            densityAtT /\
      mrec_sigmaA mRec'
        = spectrum_sub (Spectrum_of SPECTRUM_SAMPLES densityAtT) (mrec_sigmaS mRec').
Proof.
  induction fuel as [|fuel IH]; intros t0 k0 mRec mRec' smp';
    cbn [woodcock_walk next1D draws pos].
  - discriminate.
  - destruct (Hdraws k0) as (q & -> & Hq).
    cbn [fsub fneg fadd].
    destruct (Fin (t0 + - q) >=? Fin nu)%F eqn:Reach; [discriminate|].
    unfold fge in Reach. apply fle_Fin_false in Reach.
    assert (Ht : t0 <= t0 + - q) by (clear - Hq; qc2q; lra).
    destruct (_ >? dr (S k0))%F.
    + intros [= <- <-]. exists (t0 + - q).
      destruct mRec. cbn. repeat split; try assumption.
    + intro Hrec. apply IH in Hrec.
      destruct Hrec as (t & Et & Hle & Hrest).
      exists t. split; [exact Et|]. split; [|exact Hrest].
      eapply Qcle_trans; eassumption.
Qed.

End WoodcockCollision.

(** X17.  Where Woodcock tracking reports a collision.  Over a clipped
    segment with finite ends, and with draws that never move the
    proposal backwards, a call of [sampleDistance] that returns true
    leaves in the record a distance [t] inside the segment, at or after
    its start and strictly before its end, the point [ray(t)], the
    orientation at that point, and scattering and absorption
    coefficients that are the albedo at that point times the local
    extinction and the rest of the local extinction. *)
Theorem sampleDistance_woodcock_collision
    (SPECTRUM_SAMPLES : nat) (exp log : Float -> Float)
    (rayIntersect : AABB -> Ray -> option (Float * Float))
    (self : HeterogeneousMedium) (fuel : nat) (ray : Ray)
    (mRec mRec' : MediumSamplingRecord) (sampler sampler' : Sampler)
    (mint0 maxt0 : Float) (mu nu : Qc) :
  m_method self = EWoodcockTracking ->
  rayIntersect (m_densityAABB self) ray = Some (mint0, maxt0) ->
  fmax mint0 (ray_mint ray) = Fin mu ->
  fmin maxt0 (ray_maxt ray) = Fin nu ->
  (forall j, exists q,
     (log (F1 - draws sampler j) * m_invMaxDensity self)%F = Fin q /\ q <= 0) ->
  sampleDistance SPECTRUM_SAMPLES exp log rayIntersect self fuel ray mRec sampler
    = Some (true, mRec', sampler') ->
  exists t,
    mrec_t mRec' = Fin t /\ mu <= t /\ t < nu /\
    mrec_p mRec' = ray_at ray (Fin t) /\
    mrec_orientation mRec' = orientation_at self (ray_at ray (Fin t)) /\
    let densityAtT :=
      (lookupDensity self (ray_at ray (Fin t)) (ray_d ray)
       * m_densityMultiplier self)%F in
    mrec_sigmaS mRec'
      = spectrum_scale (lookupSpectrum (m_albedo self) (ray_at ray (Fin t)))
          densityAtT /\
    mrec_sigmaA mRec'
      = spectrum_sub (Spectrum_of SPECTRUM_SAMPLES densityAtT) (mrec_sigmaS mRec').
Proof.
  intros Hm Hbox Hmint Hmaxt Hdraws. unfold sampleDistance.
  rewrite Hm, Hbox, Hmint, Hmaxt. destruct sampler as [dr k0].
  destruct (woodcock_walk _ _ _ _ _ _ _ _ _) as [[[ok r] s]|] eqn:W; [|discriminate].
  intros [= Hok <- <-].
  destruct ok; [|discriminate].
  exact (woodcock_walk_collision SPECTRUM_SAMPLES log self dr Hdraws ray nu fuel
           mu k0 _ _ _ W).
Qed.



(** ** The range of the optical depth *)

Section Depth.
Variable self : HeterogeneousMedium.
Hypothesis Hdens : forall p d, nonneg (lookupDensity self p d).
Variable rayIntersect : AABB -> Ray -> option (Float * Float).


End Depth.


(** ** Exactness of the quadrature *)



Section Exactness.
Variable self : HeterogeneousMedium.
Hypothesis Hdens : forall p d, nonneg (lookupDensity self p d).
Variable rayIntersect : AABB -> Ray -> option (Float * Float).


End Exactness.


(** ** The two Woodcock trackers *)

Section Lockstep.
Variable SPECTRUM_SAMPLES : nat.
Variable log : Float -> Float.
Variable self : HeterogeneousMedium.

Lemma walks_in_lockstep (fuel : nat) (ray : Ray) (maxt : Float) :
  forall (t result : Float) (mRec : MediumSamplingRecord) (smp : Sampler),
    transmittance_walk log self fuel ray maxt t result smp
    = match woodcock_walk SPECTRUM_SAMPLES log self fuel ray maxt t mRec smp with
      | Some (ok, _, smp') => Some (if ok then result else (result + F1)%F, smp')
      | None => None
      end.
Proof.
  induction fuel as [|fuel IH]; intros t result mRec smp;
    cbn [transmittance_walk woodcock_walk].
  - reflexivity.
  - destruct (next1D smp) as [xi s1].
    destruct (_ >=? maxt)%F; [reflexivity|].
    destruct (next1D s1) as [xi' s2].
    destruct (_ >? xi')%F; [reflexivity|].
    apply IH.
Qed.

End Lockstep.

(** X22.  The two Woodcock trackers agree.  Under Woodcock tracking,
    [getTransmittance] makes the proposals of two successive calls of
    [sampleDistance] on the same ray and sampler: when the first call
    returns [ok1] and leaves the sampler at [smp1], and the second call,
    from [smp1], returns [ok2] and leaves it at [smp2], the estimate of
    [getTransmittance] is the share of the two calls that report no
    collision, in every channel, and it leaves the sampler at [smp2]. *)
Theorem woodcock_trackers_agree
    (Epsilon : Float) (SPECTRUM_SAMPLES : nat) (exp log : Float -> Float)
    (rayIntersect : AABB -> Ray -> option (Float * Float))
    (self : HeterogeneousMedium) (fuel : nat) (ray : Ray)
    (mRec mRec1 mRec2 : MediumSamplingRecord) (smp smp1 smp2 : Sampler)
    (ok1 ok2 : bool) :
  m_method self = EWoodcockTracking ->
  rayIntersect (m_densityAABB self) ray <> None ->
  sampleDistance SPECTRUM_SAMPLES exp log rayIntersect self fuel ray mRec smp
    = Some (ok1, mRec1, smp1) ->
  sampleDistance SPECTRUM_SAMPLES exp log rayIntersect self fuel ray mRec smp1
    = Some (ok2, mRec2, smp2) ->
  let count (ok : bool) (result : Float) :=
    if ok then result else (result + F1)%F in
  getTransmittance Epsilon SPECTRUM_SAMPLES exp log rayIntersect self fuel ray
    (Some smp)
  = Some (Spectrum_of SPECTRUM_SAMPLES (count ok2 (count ok1 F0) / Fz 2)%F,
          Some smp2).
Proof.
  intros Hm Hbox H1 H2 count.
  unfold sampleDistance in H1, H2. unfold getTransmittance.
  rewrite Hm in *.
  destruct (rayIntersect _ ray) as [[mint0 maxt0]|]; [|congruence].
  cbn [transmittance_samples].
  set (rec0 := set_transmittance _ _) in *.
  destruct (woodcock_walk _ _ _ _ _ _ _ rec0 smp) as [[[o1 r1] s1]|] eqn:W1;
    [|discriminate].
  destruct (woodcock_walk _ _ _ _ _ _ _ rec0 smp1) as [[[o2 r2] s2]|] eqn:W2;
    [|discriminate].
  assert (Hpos : forall fuel' t s o r s',
            woodcock_walk SPECTRUM_SAMPLES log self fuel' ray
              (fmin maxt0 (ray_maxt ray)) t rec0 s = Some (o, r, s') ->
            (o && (mrec_pdfSuccess r >? F0)%F) = o).
  { intros fuel' t s o r s' W.
    destruct (woodcock_walk_fields SPECTRUM_SAMPLES log self _ _ _ _ _ _ _ _ _ W)
      as (_ & Hp & _).
    rewrite Hp. destruct o; reflexivity. }
  rewrite (Hpos _ _ _ _ _ _ W1) in H1. rewrite (Hpos _ _ _ _ _ _ W2) in H2.
  injection H1 as -> _ ->. injection H2 as -> _ ->.
  rewrite (walks_in_lockstep SPECTRUM_SAMPLES log self fuel ray _ _ F0 rec0 smp), W1.
  rewrite (walks_in_lockstep SPECTRUM_SAMPLES log self fuel ray _ _ _ rec0 smp1), W2.
  reflexivity.
Qed.

(* ================================================================== *)
(** * The properties on the concrete scene *)
(* ================================================================== *)

Module OnScene.
Import Scene Cases.

Lemma getTransmittance_quadrature_witness :
  getTransmittance Epsilon SPECTRUM_SAMPLES exp log rayIntersect
    quadrature_medium 0 through_ray (Some half_sampler)
  = Some (Spectrum_of SPECTRUM_SAMPLES
            (exp (- integrateDensity Epsilon log rayIntersect
                      quadrature_medium through_ray)%F),
          Some half_sampler).
Proof.
  apply (getTransmittance_quadrature Epsilon SPECTRUM_SAMPLES exp log rayIntersect
           quadrature_medium 0 through_ray (Some half_sampler)).
  reflexivity.
Defined.

(** C5 fails on the code: under Woodcock tracking, a call without a
    sampler returns the spectrum [exp(-2)], here 1/7 in each channel. *)
Lemma getTransmittance_null_sampler_returns :
  exists s,
    getTransmittance Epsilon SPECTRUM_SAMPLES exp log rayIntersect
      woodcock_medium 0 through_ray None = Some (s, None) /\
    map value s = [Some (1 # 7)%Q; Some (1 # 7)%Q; Some (1 # 7)%Q].
Proof. eexists. split; [reflexivity | vm_compute; reflexivity]. Qed.

Lemma getTransmittance_woodcock_null_sampler_witness :
  getTransmittance Epsilon SPECTRUM_SAMPLES exp log rayIntersect
    woodcock_medium 0 through_ray None
  = Some (Spectrum_of SPECTRUM_SAMPLES
            (exp (- integrateDensity Epsilon log rayIntersect
                      woodcock_medium through_ray)%F),
          None).
Proof.
  apply (getTransmittance_woodcock_null_sampler Epsilon SPECTRUM_SAMPLES exp log
           rayIntersect woodcock_medium 0 through_ray).
  reflexivity.
Defined.

Lemma pdfDistance_fatal_under_woodcock_witness :
  (exists msg,
     pdfDistance Epsilon SPECTRUM_SAMPLES exp log rayIntersect woodcock_medium
       through_ray blank_record = Fatal msg) /\
  (exists r,
     pdfDistance Epsilon SPECTRUM_SAMPLES exp log rayIntersect quadrature_medium
       through_ray blank_record = Ok r).
Proof.
  split.
  - apply (proj1 (pdfDistance_fatal_under_woodcock Epsilon SPECTRUM_SAMPLES exp log
                    rayIntersect woodcock_medium through_ray blank_record)).
    reflexivity.
  - apply (proj2 (pdfDistance_fatal_under_woodcock Epsilon SPECTRUM_SAMPLES exp log
                    rayIntersect quadrature_medium through_ray blank_record)).
    reflexivity.
Defined.

(** C6 fails on the code: a collision under Woodcock tracking leaves
    [albedo / sigmaS] in [transmittance], here 1/2 in each channel, with
    the three pdf fields at 1. *)
Lemma sampleDistance_woodcock_transmittance_not_one :
  exists mRec s,
    sampleDistance SPECTRUM_SAMPLES exp log rayIntersect woodcock_medium2 1
      through_ray blank_record half_sampler = Some (true, mRec, s) /\
    map value (mrec_transmittance mRec)
      = [Some (1 # 2)%Q; Some (1 # 2)%Q; Some (1 # 2)%Q] /\
    mrec_transmittance mRec <> Spectrum_of SPECTRUM_SAMPLES F1.
Proof.
  eexists. eexists. split; [vm_compute; reflexivity|].
  split; [vm_compute; reflexivity|].
  intro H. apply (f_equal (map value)) in H. vm_compute in H. discriminate H.
Qed.

Lemma half_sampler_advances (j : nat) :
  exists q,
    (log (F1 - draws half_sampler j) * m_invMaxDensity woodcock_medium2)%F = Fin q /\
    q <= - Q2Qc (1 # 4).
Proof.
  eexists. split; [reflexivity|]. apply Qc_leb_iff. vm_compute. reflexivity.
Qed.

Lemma sampleDistance_woodcock_sentinels_witness :
  (exists fuel,
     sampleDistance SPECTRUM_SAMPLES exp log rayIntersect woodcock_medium2 fuel
       through_ray blank_record half_sampler <> None) /\
  (exists mRec s,
     sampleDistance SPECTRUM_SAMPLES exp log rayIntersect woodcock_medium2 1
       through_ray blank_record half_sampler = Some (true, mRec, s) /\
     mrec_pdfSuccess mRec = F1 /\ mrec_pdfFailure mRec = F1 /\
     mrec_pdfSuccessRev mRec = F1 /\
     mrec_transmittance mRec
       = spectrum_div (lookupSpectrum (m_albedo woodcock_medium2) (mrec_p mRec))
           (mrec_sigmaS mRec)).
Proof.
  destruct (sampleDistance_woodcock_sentinels SPECTRUM_SAMPLES exp log rayIntersect
              woodcock_medium2 through_ray blank_record half_sampler eq_refl)
    as (Hfields & _ & Hreturns).
  split.
  - pose (i := hit unit_box through_ray).
    apply (Hreturns (Q2Qc (1 # 4))
             (finite_part (fmax (fst i) (ray_mint through_ray)))
             (finite_part (fmin (snd i) (ray_maxt through_ray)))
             (fst i) (snd i)).
    + apply Qc_ltb_iff. reflexivity.
    + exact half_sampler_advances.
    + vm_compute. reflexivity.
    + vm_compute. reflexivity.
    + vm_compute. reflexivity.
  - destruct (sampleDistance SPECTRUM_SAMPLES exp log rayIntersect woodcock_medium2 1
                through_ray blank_record half_sampler) as [[[ok mRec] s]|] eqn:E;
      [|vm_compute in E; discriminate E].
    assert (Hok : ok = true).
    { vm_compute in E. injection E as <- _ _. reflexivity. }
    subst ok. exists mRec, s. split; [reflexivity|].
    destruct (Hfields 1%nat true mRec s E) as (H1 & H2 & H3 & _ & H5).
    repeat split; auto.
Defined.

Lemma sampleDistance_quadrature_success_witness :
  (exists mRec',
     sampleDistance SPECTRUM_SAMPLES exp log rayIntersect quadrature_medium 0
       through_ray blank_record half_sampler
     = Some (true, mRec', snd (next1D half_sampler)) /\
     value (mrec_t mRec') = Some (2933217 # 625000)%Q) /\
  (inv_found (invertDensityIntegral rayIntersect vacuum_medium through_ray
                (- log (F1 - fst (next1D zero_sampler)))%F F0) = true /\
   exists mRec',
     sampleDistance SPECTRUM_SAMPLES exp log rayIntersect vacuum_medium 0
       through_ray blank_record zero_sampler
     = Some (false, mRec', snd (next1D zero_sampler)) /\
     value (mrec_t mRec') = Some (9 # 2)%Q).
Proof.
  split.
  - destruct (sampleDistance_quadrature_success SPECTRUM_SAMPLES exp log rayIntersect
                quadrature_medium 0 through_ray blank_record half_sampler eq_refl)
      as (mRec' & Hrun & _ & Ht & _).
    exists mRec'. split.
    + rewrite Hrun. vm_compute. reflexivity.
    + rewrite Ht. vm_compute. reflexivity.
  - destruct (sampleDistance_quadrature_success SPECTRUM_SAMPLES exp log rayIntersect
                vacuum_medium 0 through_ray blank_record zero_sampler eq_refl)
      as (mRec' & Hrun & _ & Ht & Hzero).
    split; [vm_compute; reflexivity|].
    exists mRec'. split.
    + rewrite Hrun, Hzero; [reflexivity | vm_compute; reflexivity |].
      left. vm_compute. reflexivity.
    + rewrite Ht. vm_compute. reflexivity.
Defined.

(** C8 fails on the code: a negative base density comes out as it is. *)
Lemma lookupDensity_negative :
  lookupDensity negative_medium origin x_axis = Fz (-1) /\
  (lookupDensity negative_medium origin x_axis >=? F0)%F = false.
Proof. split; reflexivity. Qed.

Lemma nonneg_F1 : nonneg F1.
Proof. exists 1. split; [reflexivity|]. apply Qc_leb_iff. reflexivity. Qed.

Lemma fibres_nonneg (c : Float) : nonneg (sigmaDir fibres c).
Proof.
  destruct c as [a| | |]; cbn.
  - exists (Qcabs a). split; [reflexivity | apply Qcabs_nonneg].
  - exists 0. split; [reflexivity | apply Qcle_refl].
  - exists 0. split; [reflexivity | apply Qcle_refl].
  - exists 0. split; [reflexivity | apply Qcle_refl].
Qed.

Lemma lookupDensity_contract_witness :
  lookupDensity quadrature_medium origin x_axis = F1 /\
  lookupDensity fibre_medium origin (mkVector F0 F0 (Fz 2))
    = (F1 * sigmaDir fibres (dot (mkVector F0 F0 (Fz 2)) (mkVector F0 F0 F1)))%F /\
  nonneg (lookupDensity fibre_medium origin (mkVector F0 F0 (Fz 2))).
Proof.
  split; [|split].
  - apply (proj1 (lookupDensity_contract quadrature_medium origin x_axis)).
    left. reflexivity.
  - apply (proj1 (proj1 (proj2 (lookupDensity_contract fibre_medium origin
                                  (mkVector F0 F0 (Fz 2))))
                    (constant_volume F1 (Fq 1 2) (mkVector F0 F0 F1))
                    eq_refl eq_refl eq_refl)).
    reflexivity.
  - apply (proj2 (proj2 (lookupDensity_contract fibre_medium origin
                           (mkVector F0 F0 (Fz 2))))).
    + exact nonneg_F1.
    + exact fibres_nonneg.
Defined.



Lemma exp_F0 : exp F0 = F1.
Proof.
  unfold exp, F0, F1. cbn. f_equal; try (apply Qc_is_canon; reflexivity).
Qed.








End OnScene.

(* ================================================================== *)
(** * The further properties on the concrete scene *)
(* ================================================================== *)

Module OnWorkshop.
Import Scene Cases Workshop.

Lemma constructor_accepts_witness :
  HeterogeneousMedium_new Medium_new simpson_props
  = Ok (mkState (F1, isotropic) ESimpsonQuadrature None None None (Fq 1 2)).
Proof.
  destruct (constructor_accepts MediumBase Medium_new simpson_props (F1, isotropic))
    as (Hiff & _).
  - reflexivity.
  - apply Hiff. split; [reflexivity|]. split; [reflexivity|].
    right. split; reflexivity.
Defined.

Lemma configure_needs_volumes_witness :
  exists msg,
    configure densityMultiplier phaseFunction Medium_configure
      (mkState (F1, isotropic) EWoodcockTracking None (Some albedo_grid) None F0)
    = Fatal msg.
Proof.
  pose proof (configure_needs_volumes MediumBase PhaseFunction densityMultiplier
                phaseFunction Medium_configure Medium_new Medium_addChild true
                bare_props [("albedo"%string, VolumeChild albedo_grid)]
                (mkState (F1, isotropic) EWoodcockTracking None None None F0)
                (mkState (F1, isotropic) EWoodcockTracking None (Some albedo_grid)
                   None F0)) as Hnever.
  destruct (configure densityMultiplier phaseFunction Medium_configure _)
    as [r | msg] eqn:E.
  - exfalso. apply (Hnever eq_refl eq_refl) with (r := r).
    + left. intros v [Ev | []]. discriminate Ev.
    + reflexivity.
  - exists msg. reflexivity.
Defined.

Lemma addChild_volumes_compose_witness :
  bind (addChild Medium_addChild true "albedo" (VolumeChild albedo_grid)
          (mkState (F1, isotropic) ESimpsonQuadrature None None None F0))
    (addChild Medium_addChild true "density" (VolumeChild density_grid))
  = Ok inferred_state_without_orientation.
Proof.
  destruct (addChild_volumes_compose MediumBase PhaseFunction Medium_addChild true
              "density" "albedo" density_grid albedo_grid
              (mkState (F1, isotropic) ESimpsonQuadrature None None None F0))
    as (Hcomm & _).
  - cbn. auto.
  - cbn. auto.
  - apply Hcomm; [discriminate | reflexivity].
Defined.

Lemma configured_anisotropic_has_orientation_witness :
  m_orientation (snd (configured fibre_state)) = Some (lookups orientation_grid).
Proof.
  destruct (configured_anisotropic_has_orientation MediumBase densityMultiplier
              phaseFunction Medium_configure fibre_state
              (fst (configured fibre_state)) (snd (configured fibre_state)))
    as (o & Eo & Em & _).
  - vm_compute. reflexivity.
  - vm_compute. reflexivity.
  - injection Eo as <-. exact Em.
Defined.

Lemma configure_infers_stepSize_witness :
  m_stepSize (snd (configured inferred_state)) = Fq 1 8 /\
  (m_stepSize (snd (configured inferred_state)) <=? getStepSize density_grid)%F = true.
Proof.
  destruct (configure_infers_stepSize MediumBase densityMultiplier phaseFunction
              Medium_configure inferred_state
              (fst (configured inferred_state)) (snd (configured inferred_state)))
    as (_ & _ & Hinf).
  - vm_compute. reflexivity.
  - destruct Hinf as (_ & Hmin).
    + reflexivity.
    + destruct Hmin as (Hle & _).
      * intros v [[= <-] | [[= <-] | [[= <-] | []]]]; discriminate.
      * split; [reflexivity|]. apply Hle. cbn. auto.
Defined.


Lemma serialize_round_trip_witness :
  unserialize densityMultiplier phaseFunction Medium_configure Medium_unserialize
    (serialize Medium_serialize (fst (configured fibre_state)))
  = Ok (configured fibre_state, nil).
Proof.
  rewrite <- (app_nil_r (serialize Medium_serialize (fst (configured fibre_state)))).
  rewrite (serialize_round_trip MediumBase densityMultiplier phaseFunction
             Medium_configure Medium_serialize Medium_unserialize fibre_state
             (fst (configured fibre_state)) (snd (configured fibre_state)) nil).
  - destruct (configured fibre_state). reflexivity.
  - intros b s. reflexivity.
  - intros b b' H. injection H as <-. reflexivity.
  - vm_compute. reflexivity.
Defined.




Lemma invertDensityIntegral_failure_outputs_witness :
  inv_t (invertDensityIntegral rayIntersect quadrature_medium through_ray (Fq 5 2)
           (Fz 7)) = Fz 7.
Proof.
  destruct (invertDensityIntegral_failure_outputs rayIntersect quadrature_medium
              through_ray (Fq 5 2) (Fz 7)) as (Ht & _).
  - vm_compute. reflexivity.
  - exact Ht.
Defined.

(** What [sampleDistance] returns, and a miss if it does not. *)
Local Abbreviation ran r := (returned (false, blank_record, half_sampler) r).

Lemma sampleDistance_no_collision_keeps_record_witness :
  mrec_t (snd (fst (ran (sampleDistance SPECTRUM_SAMPLES exp log rayIntersect
                           quadrature_medium 0 through_ray blank_record
                           late_sampler))))
  = mrec_t blank_record.
Proof.
  pose (r := ran (sampleDistance SPECTRUM_SAMPLES exp log rayIntersect
                    quadrature_medium 0 through_ray blank_record late_sampler)).
  destruct (sampleDistance_no_collision_keeps_record SPECTRUM_SAMPLES exp log
              rayIntersect quadrature_medium 0 through_ray blank_record
              (snd (fst r)) late_sampler (snd r) (fst (fst r)))
    as (_ & Ht & _).
  - vm_compute. reflexivity.
  - right. split; [reflexivity|]. vm_compute. reflexivity.
  - exact Ht.
Defined.

Lemma sampleDistance_miss_witness :
  exists mRec' sampler',
    sampleDistance SPECTRUM_SAMPLES exp log rayIntersect quadrature_medium 0
      missing_ray blank_record half_sampler = Some (false, mRec', sampler') /\
    mrec_pdfFailure mRec' = F1.
Proof.
  destruct (sampleDistance_miss SPECTRUM_SAMPLES exp log rayIntersect quadrature_medium
              missing_ray blank_record half_sampler OnScene.exp_F0) with (fuel := 0%nat)
    as (mRec' & sampler' & Hrun & Hpdf & _).
  - vm_compute. reflexivity.
  - exists mRec', sampler'. split; assumption.
Defined.

Lemma getTransmittance_woodcock_estimate_witness :
  let r := returned ([], None)
             (getTransmittance Epsilon SPECTRUM_SAMPLES exp log rayIntersect
                woodcock_medium2 2 through_ray (Some half_sampler)) in
  fst r = Spectrum_of SPECTRUM_SAMPLES F0 \/
  fst r = Spectrum_of SPECTRUM_SAMPLES (Fq 1 2) \/
  fst r = Spectrum_of SPECTRUM_SAMPLES F1.
Proof.
  intro r.
  apply (getTransmittance_woodcock_estimate Epsilon SPECTRUM_SAMPLES exp log
           rayIntersect woodcock_medium2 2 through_ray half_sampler (fst r) (snd r)).
  - reflexivity.
  - vm_compute. reflexivity.
Defined.

Lemma log_F1 : log F1 = F0.
Proof.
  unfold log, F0, F1. cbn. f_equal; try (apply Qc_is_canon; reflexivity).
Qed.

Lemma woodcock_lost_in_vacuum_witness :
  sampleDistance SPECTRUM_SAMPLES exp log rayIntersect vacuum_woodcock_medium 1000
    through_ray blank_record zero_sampler = None.
Proof.
  apply (woodcock_lost_in_vacuum Epsilon SPECTRUM_SAMPLES exp log rayIntersect
           vacuum_woodcock_medium through_ray blank_record zero_sampler 1).
  - reflexivity.
  - vm_compute. reflexivity.
  - intros p d. reflexivity.
  - reflexivity.
  - exact log_F1.
  - vm_compute. discriminate.
  - reflexivity.
Defined.

Lemma half_sampler_forward (j : nat) :
  exists q,
    (log (F1 - draws half_sampler j) * m_invMaxDensity woodcock_medium2)%F = Fin q /\
    q <= 0.
Proof.
  eexists. split; [reflexivity|]. apply Qc_leb_iff. vm_compute. reflexivity.
Qed.

Lemma sampleDistance_woodcock_collision_witness :
  let i := hit unit_box through_ray in
  let r := ran (sampleDistance SPECTRUM_SAMPLES exp log rayIntersect woodcock_medium2 1
                  through_ray blank_record half_sampler) in
  exists t,
    mrec_t (snd (fst r)) = Fin t /\
    finite_part (fmax (fst i) (ray_mint through_ray)) <= t /\
    t < finite_part (fmin (snd i) (ray_maxt through_ray)).
Proof.
  intros i r.
  destruct (sampleDistance_woodcock_collision SPECTRUM_SAMPLES exp log rayIntersect
              woodcock_medium2 1 through_ray blank_record (snd (fst r)) half_sampler
              (snd r) (fst i) (snd i)
              (finite_part (fmax (fst i) (ray_mint through_ray)))
              (finite_part (fmin (snd i) (ray_maxt through_ray))))
    as (t & Et & Hlo & Hhi & _).
  - reflexivity.
  - vm_compute. reflexivity.
  - vm_compute. reflexivity.
  - vm_compute. reflexivity.
  - exact half_sampler_forward.
  - vm_compute. reflexivity.
  - exists t. auto.
Defined.








Lemma woodcock_trackers_agree_witness :
  let r1 := ran (sampleDistance SPECTRUM_SAMPLES exp log rayIntersect woodcock_medium2
                   2 through_ray blank_record half_sampler) in
  let r2 := ran (sampleDistance SPECTRUM_SAMPLES exp log rayIntersect woodcock_medium2
                   2 through_ray blank_record (snd r1)) in
  getTransmittance Epsilon SPECTRUM_SAMPLES exp log rayIntersect woodcock_medium2 2
    through_ray (Some half_sampler)
  = Some (Spectrum_of SPECTRUM_SAMPLES
            ((if fst (fst r2)
              then (if fst (fst r1) then F0 else F0 + F1)
              else (if fst (fst r1) then F0 else F0 + F1) + F1) / Fz 2)%F,
          Some (snd r2)).
Proof.
  intros r1 r2.
  apply (woodcock_trackers_agree Epsilon SPECTRUM_SAMPLES exp log rayIntersect
           woodcock_medium2 2 through_ray blank_record (snd (fst r1)) (snd (fst r2))
           half_sampler (snd r1) (snd r2) (fst (fst r1)) (fst (fst r2))).
  - reflexivity.
  - vm_compute. discriminate.
  - vm_compute. reflexivity.
  - vm_compute. reflexivity.
Defined.

Lemma configure_accepts_iff_witness :
  exists r,
    configure densityMultiplier phaseFunction Medium_configure inferred_state = Ok r.
Proof.
  apply (configure_accepts_iff MediumBase densityMultiplier phaseFunction
           Medium_configure inferred_state).
  exists (F1, isotropic), density_grid, albedo_grid.
  do 3 (split; [reflexivity|]). split.
  - intros _. vm_compute. discriminate.
  - intro H. discriminate H.
Defined.

Lemma invertDensityIntegral_densityAtMinT_witness :
  inv_densityAtMinT
    (invertDensityIntegral rayIntersect quadrature_medium through_ray (Fq 3 2) F0)
  = F0.
Proof.
  rewrite (invertDensityIntegral_densityAtMinT rayIntersect quadrature_medium
             through_ray (Fq 3 2) F0).
  vm_compute. reflexivity.
Defined.

End OnWorkshop.
